(** * uhid-example.c: a HID keyboard emulated over UHID

    A shallow embedding of [uhid-example.c] and the properties of its
    report descriptor, key tracker, escape-sequence translator, output
    decoder and dispatch loop.

    Conventions of the embedding:
    - a C [int], [char] or [unsigned char] is a [Z]; where the C code
      narrows a value to [unsigned char] the wrap-around is written
      with [to_uchar], an [int] converted to [size_t] with [to_size_t];
    - the arrays [key_codes[6]] and [escape_buf[8]] are lists, read
      with [rd] and written with stdpp's [<[i:=x]>];
    - the static variables of the keyboard are the fields of
      [kbd_state], threaded explicitly through every function;
    - [write(2)] on the uhid device is modelled by the list of events
      the program hands to it, [read(2)] and [poll(2)] by the answers
      the environment gives ([stdin_read], [uhid_read], [wakeup]);
    - the diagnostics printed on stderr are left out, except the LED
      flags printed by [handle_output]; so is the terminal set-up at
      the start of [main], which no function below depends on. *)

From Stdlib Require Import ZArith Ascii String.
From stdpp Require Import base tactics option numbers list.

#[local] Open Scope Z_scope.

(** ** Characters and machine integers *)

(** The value of a C character literal. *)
Definition ch (a : ascii) : Z := Z.of_N (N_of_ascii a).

Definition to_uchar (x : Z) : Z := x mod 256.
Definition to_size_t (x : Z) : Z := x mod 2 ^ 64.

(** [a[i]] for an array held as a list.  Reading outside the array is
    undefined in C; the model answers 0 there, and the state invariant
    [kbd_wf] keeps every read of the program inside. *)
Definition rd (a : list Z) (i : Z) : Z := default 0 (a !! Z.to_nat i).

(** [c >= lo && c <= hi] *)
Definition between (lo hi c : Z) : bool := (lo <=? c) && (c <=? hi).

(** ** Constants of the system headers *)

(** <linux/uhid.h>, [enum uhid_event_type]. *)
Definition UHID_CREATE : Z := 0.
Definition UHID_DESTROY : Z := 1.
Definition UHID_START : Z := 2.
Definition UHID_STOP : Z := 3.
Definition UHID_OPEN : Z := 4.
Definition UHID_CLOSE : Z := 5.
Definition UHID_OUTPUT : Z := 6.
Definition UHID_OUTPUT_EV : Z := 7.
Definition UHID_INPUT : Z := 8.

(** <linux/uhid.h>, [enum uhid_report_type]. *)
Definition UHID_FEATURE_REPORT : Z := 0.
Definition UHID_OUTPUT_REPORT : Z := 1.
Definition UHID_INPUT_REPORT : Z := 2.

(** <linux/input.h>, <poll.h>, <errno.h>, <stdlib.h>. *)
Definition BUS_USB : Z := 0x03.
Definition POLLIN : Z := 0x001.
Definition POLLHUP : Z := 0x010.
Definition EFAULT : Z := 14.
Definition EXIT_SUCCESS : Z := 0.
Definition EXIT_FAILURE : Z := 1.

(** ** Events *)

(** [struct uhid_create_req]; [rd_data] is the array the pointer
    refers to. *)
Record uhid_create_req := {
  name : string;
  rd_data : list Z;
  rd_size : Z;
  bus : Z;
  vendor : Z;
  product : Z;
  version : Z;
  country : Z;
}.

(** [struct uhid_input_req]: [in_data] holds the first [in_size] bytes
    of [data]; the rest of the buffer is zero after the [memset]. *)
Record uhid_input_req := {
  in_data : list Z;
  in_size : Z;
}.

(** [struct uhid_output_req]; a byte of [out_data] past the end of the
    list is zero, as [event] clears the record before reading. *)
Record uhid_output_req := {
  out_data : list Z;
  out_size : Z;
  rtype : Z;
}.

(** The events the program writes to the device. *)
Inductive uhid_event :=
  | EvCreate (r : uhid_create_req)
  | EvDestroy
  | EvInput (r : uhid_input_req).

(** An event read from the device: its tag and the bytes of the union
    seen as [u.output]. *)
Record uhid_dev_event := {
  ev_type : Z;
  ev_output : uhid_output_req;
}.

(** What [write] answered: an error with its [errno], a short count,
    or [sizeof(struct uhid_event)]. *)
Inductive write_res :=
  | WrErr (errno : Z)
  | WrShort (n : Z)
  | WrFull.

(** What [read] on the device answered: 0, an error, a count that is
    not [sizeof(struct uhid_event)], or a whole event. *)
Inductive uhid_read :=
  | DevHup
  | DevErr (errno : Z)
  | DevShort (n : Z)
  | DevEvent (ev : uhid_dev_event).

(** What [read] on stdin answered: 0, an error, or [ret > 0] bytes. *)
Inductive stdin_read :=
  | InHup
  | InErr (errno : Z)
  | InData (buf : list Z).

(** ** The report descriptor *)

Definition rdesc : list Z := [
  0x05; 0x01;
  0x09; 0x06;
  0xa1; 0x01;
  0x05; 0x07;
  0x19; 0xe0;
  0x29; 0xe7;
  0x15; 0x00;
  0x25; 0x01;
  0x75; 0x01;
  0x95; 0x08;
  0x81; 0x02;
  0x95; 0x01;
  0x75; 0x08;
  0x81; 0x01;
  0x95; 0x06;
  0x75; 0x08;
  0x15; 0x00;
  0x25; 0x65;
  0x05; 0x07;
  0x19; 0x00;
  0x29; 0x65;
  0x81; 0x00;
  0xc0
].

(** ** The device gateway *)

(** The return value of [uhid_write]. *)
Definition uhid_write (w : write_res) : Z :=
  match w with
  | WrErr errno => - errno
  | WrShort _ => - EFAULT
  | WrFull => 0
  end.

(** The fields [create] sets in [ev.u.create]. *)
Definition create_req : uhid_create_req := {|
  name := "test-uhid-device";
  rd_data := rdesc;
  rd_size := Z.of_nat (length rdesc);
  bus := BUS_USB;
  vendor := 0x15d9;
  product := 0x0a37;
  version := 0;
  country := 0;
|}.

(** The event [create] builds. *)
Definition create_event : uhid_event := EvCreate create_req.

Definition create (w : write_res) : Z * list uhid_event :=
  (uhid_write w, [create_event]).

Definition destroy : list uhid_event := [EvDestroy].

(** [handle_output]: [Some flags] when the LED message is printed. *)
Definition handle_output (o : uhid_output_req) : option Z :=
  if negb (rtype o =? UHID_OUTPUT_REPORT) then None
  else if negb (out_size o =? 2) then None
  else if negb (rd (out_data o) 0 =? 0x2) then None
  else Some (rd (out_data o) 1).

(** [event]: the return value and the LED flags printed, if any. *)
Definition event (r : uhid_read) : Z * option Z :=
  match r with
  | DevHup => (- EFAULT, None)
  | DevErr errno => (- errno, None)
  | DevShort _ => (- EFAULT, None)
  | DevEvent ev =>
      if ev_type ev =? UHID_OUTPUT then (0, handle_output (ev_output ev))
      else (0, None)
  end.

(** ** Keyboard state *)

Record kbd_state := {
  modifier_keys : Z;
  key_codes : list Z;
  num_keys_pressed : Z;
  escape_buf : list Z;
  escape_len : Z;
}.

Definition kbd_init : kbd_state := {|
  modifier_keys := 0;
  key_codes := replicate 6 0;
  num_keys_pressed := 0;
  escape_buf := replicate 8 0;
  escape_len := 0;
|}.

Definition set_modifier_keys (m : Z) (s : kbd_state) : kbd_state :=
  {| modifier_keys := m; key_codes := key_codes s;
     num_keys_pressed := num_keys_pressed s;
     escape_buf := escape_buf s; escape_len := escape_len s |}.

Definition set_keys (kc : list Z) (n : Z) (s : kbd_state) : kbd_state :=
  {| modifier_keys := modifier_keys s; key_codes := kc;
     num_keys_pressed := n;
     escape_buf := escape_buf s; escape_len := escape_len s |}.

Definition set_escape (b : list Z) (n : Z) (s : kbd_state) : kbd_state :=
  {| modifier_keys := modifier_keys s; key_codes := key_codes s;
     num_keys_pressed := num_keys_pressed s;
     escape_buf := b; escape_len := n |}.

(** ** The report codec *)

Definition send_event (s : kbd_state) : uhid_event :=
  let keys :=
    if 0 <? num_keys_pressed s then
      let copy_len :=
        if 6 <? num_keys_pressed s then 6 else num_keys_pressed s in
      take (Z.to_nat copy_len) (key_codes s)
        ++ replicate (6 - Z.to_nat copy_len) 0
    else replicate 6 0 in
  EvInput {| in_data := modifier_keys s :: 0 :: keys; in_size := 8 |}.

(** ** The mapping table *)

Definition ascii_to_hid (c : Z) : Z :=
  if between (ch "a") (ch "z") c then to_uchar (0x04 + (c - ch "a"))
  else if between (ch "A") (ch "Z") c then to_uchar (0x04 + (c - ch "A"))
  else if between (ch "1") (ch "9") c then to_uchar (0x1e + (c - ch "1"))
  else if c =? ch "0" then 0x27
  else if c =? ch " " then 0x2c
  else if (c =? 10) || (c =? 13) then 0x28
  else if c =? 8 then 0x2a
  else if c =? 9 then 0x2b
  else if c =? 27 then 0x29
  else if c =? ch "!" then 0x1e
  else if c =? ch "@" then 0x1f
  else if c =? ch "#" then 0x20
  else if c =? ch "$" then 0x21
  else if c =? ch "%" then 0x22
  else if c =? ch "^" then 0x23
  else if c =? ch "&" then 0x24
  else if c =? ch "*" then 0x25
  else if c =? ch "(" then 0x26
  else if c =? ch ")" then 0x27
  else if c =? ch "-" then 0x2d
  else if c =? ch "=" then 0x2e
  else if c =? ch "[" then 0x2f
  else if c =? ch "]" then 0x30
  else if c =? ch "\" then 0x31
  else if c =? ch ";" then 0x33
  else if c =? ch "'" then 0x34
  else if c =? ch "`" then 0x35
  else if c =? ch "," then 0x36
  else if c =? ch "." then 0x37
  else if c =? ch "/" then 0x38
  else 0.

(** ** The escape buffer *)

(** The usage code of the [switch] over the third byte; 0 when no case
    matches. *)
Definition arrow_code (x : Z) : Z :=
  if x =? ch "A" then 0x52
  else if x =? ch "B" then 0x51
  else if x =? ch "C" then 0x4f
  else if x =? ch "D" then 0x50
  else 0.

Definition process_escape_sequence (s : kbd_state) : Z * kbd_state :=
  if (3 <=? escape_len s) && (rd (escape_buf s) 0 =? 27)
       && (rd (escape_buf s) 1 =? ch "[")
  then
    let hid_code := arrow_code (rd (escape_buf s) 2) in
    if negb (hid_code =? 0) then (hid_code, set_escape (escape_buf s) 0 s)
    else (0, s)
  else (0, s).

Definition add_to_escape_buf (c : Z) (s : kbd_state) : kbd_state :=
  if to_size_t (escape_len s) <? 8 - 1 then
    set_escape (<[Z.to_nat (escape_len s) := c]> (escape_buf s))
               (escape_len s + 1) s
  else set_escape (escape_buf s) 0 s.

(** ** The key tracker *)

Definition add_key (hid_code : Z) (s : kbd_state) : kbd_state :=
  if 6 <=? num_keys_pressed s then s
  else if existsb (fun i => rd (key_codes s) i =? hid_code)
                  (seqZ 0 (num_keys_pressed s)) then s
  else set_keys (<[Z.to_nat (num_keys_pressed s) := hid_code]> (key_codes s))
                (num_keys_pressed s + 1) s.

(** The inner loop of [remove_key]:
    [for (j = i; j < n - 1; j++) key_codes[j] = key_codes[j + 1]]. *)
Definition shift_keys_left (i n : Z) (kc : list Z) : list Z :=
  foldl (fun kc j => <[Z.to_nat j := rd kc (j + 1)]> kc) kc
        (seqZ i (n - 1 - i)).

(** The outer loop of [remove_key] over the indices still to visit;
    the first match ends it. *)
Fixpoint remove_key_from (idx : list Z) (hid_code : Z) (s : kbd_state)
  : kbd_state :=
  match idx with
  | [] => s
  | i :: idx' =>
      if rd (key_codes s) i =? hid_code then
        let kc := shift_keys_left i (num_keys_pressed s) (key_codes s) in
        let n := num_keys_pressed s - 1 in
        set_keys (<[Z.to_nat n := 0]> kc) n s
      else remove_key_from idx' hid_code s
  end.

Definition remove_key (hid_code : Z) (s : kbd_state) : kbd_state :=
  remove_key_from (seqZ 0 (num_keys_pressed s)) hid_code s.

Definition clear_keys (s : kbd_state) : kbd_state :=
  set_modifier_keys 0 (set_keys (replicate 6 0) 0 s).

(** ** The translator *)

(** How the first part of the loop body of [keyboard] ends: with
    [continue], or with a usage code to look at. *)
Inductive resolved :=
  | Continue
  | Code (hid_code : Z).

Definition is_arrow (hid_code : Z) : bool :=
  (hid_code =? 0x52) || (hid_code =? 0x51)
  || (hid_code =? 0x4f) || (hid_code =? 0x50).

(** [buf[i] >= 'A' && buf[i] <= 'Z' && !(hid_code == 0x52 || ...)] *)
Definition needs_shift (c hid_code : Z) : bool :=
  between (ch "A") (ch "Z") c && negb (is_arrow hid_code).

(** The part of the loop body that finds the usage code of [buf[i]];
    [next] is [buf[i+1]] when [i + 1 < ret]. *)
Definition resolve (c : Z) (next : option Z) (s : kbd_state)
  : resolved * kbd_state :=
  if 0 <? escape_len s then
    let s1 := add_to_escape_buf c s in
    let '(hid_code, s2) := process_escape_sequence s1 in
    if negb (hid_code =? 0) then (Code hid_code, s2) else (Continue, s2)
  else if c =? 27 then
    match next with
    | Some n =>
        if n =? ch "[" then (Continue, add_to_escape_buf c s)
        else (Code (ascii_to_hid c), s)
    | None => (Code (ascii_to_hid c), s)
    end
  else (Code (ascii_to_hid c), s).

(** The press and the release of one usage code. *)
Definition press_release (c hid_code : Z) (s : kbd_state)
  : kbd_state * list uhid_event :=
  let s1 :=
    if needs_shift c hid_code
    then set_modifier_keys (to_uchar (Z.lor (modifier_keys s) 0x02)) s
    else s in
  let s2 := add_key hid_code s1 in
  let press := send_event s2 in
  let s3 := remove_key hid_code s2 in
  let s4 :=
    if needs_shift c hid_code
    then set_modifier_keys
           (to_uchar (Z.land (modifier_keys s3) (Z.lnot 0x02))) s3
    else s3 in
  let release := send_event s4 in
  (s4, [press; release]).

(** One turn of the loop of [keyboard]. *)
Definition keyboard_byte (c : Z) (next : option Z) (s : kbd_state)
  : kbd_state * list uhid_event :=
  match resolve c next s with
  | (Continue, s1) => (s1, [])
  | (Code hid_code, s1) =>
      if hid_code =? 0 then (s1, []) else press_release c hid_code s1
  end.

(** The loop of [keyboard] over the bytes of one chunk. *)
Fixpoint keyboard_loop (buf : list Z) (s : kbd_state)
  : kbd_state * list uhid_event :=
  match buf with
  | [] => (s, [])
  | c :: rest =>
      let '(s1, out1) := keyboard_byte c (head rest) s in
      let '(s2, out2) := keyboard_loop rest s1 in
      (s2, out1 ++ out2)
  end.

Definition keyboard (r : stdin_read) (s : kbd_state)
  : Z * kbd_state * list uhid_event :=
  match r with
  | InHup => (- EFAULT, s, [])
  | InErr errno => (- errno, s, [])
  | InData buf => let '(s1, out) := keyboard_loop buf s in (0, s1, out)
  end.

(** Several chunks, one [keyboard] call each. *)
Fixpoint keyboard_chunks (chunks : list (list Z)) (s : kbd_state)
  : kbd_state * list uhid_event :=
  match chunks with
  | [] => (s, [])
  | buf :: rest =>
      let '(s1, out1) := keyboard_loop buf s in
      let '(s2, out2) := keyboard_chunks rest s1 in
      (s2, out1 ++ out2)
  end.

(** ** The dispatcher *)

(** The state of the process inside [main]: the keyboard, the events
    written to the device so far, and the LED flags printed so far. *)
Record process := {
  kbd : kbd_state;
  written : list uhid_event;
  leds : list Z;
}.

(** What the environment answers during one turn of the [while (1)]
    loop: the result of [poll] with the two [revents], and the results
    of the [read] calls on stdin and on the device, should the turn
    make them. *)
Record wakeup := {
  poll_ret : Z;
  revents0 : Z;
  revents1 : Z;
  stdin_rd : stdin_read;
  uhid_rd : uhid_read;
}.

(** [revents & flag] as a C condition. *)
Definition has_flag (revents flag : Z) : bool :=
  negb (Z.land revents flag =? 0).

Definition run_keyboard (w : wakeup) (p : process) : bool * process :=
  if has_flag (revents0 w) POLLIN then
    let '(ret, s, out) := keyboard (stdin_rd w) (kbd p) in
    (negb (ret =? 0),
     {| kbd := s; written := written p ++ out; leds := leds p |})
  else (false, p).

Definition run_event (w : wakeup) (p : process) : bool * process :=
  if has_flag (revents1 w) POLLIN then
    let '(ret, led) := event (uhid_rd w) in
    (negb (ret =? 0),
     {| kbd := kbd p; written := written p;
        leds := leds p ++ option_list led |})
  else (false, p).

(** One turn of the loop; [true] stands for [break]. *)
Definition main_turn (w : wakeup) (p : process) : bool * process :=
  if poll_ret w <? 0 then (true, p)
  else if has_flag (revents0 w) POLLHUP then (true, p)
  else if has_flag (revents1 w) POLLHUP then (true, p)
  else
    let '(brk, p1) := run_keyboard w p in
    if brk then (true, p1) else run_event w p1.

(** The loop over the wakeups the environment delivers; [false] when
    they are used up and the loop is blocked in [poll] again. *)
Fixpoint main_loop (ws : list wakeup) (p : process) : bool * process :=
  match ws with
  | [] => (false, p)
  | w :: ws' =>
      let '(brk, p1) := main_turn w p in
      if brk then (true, p1) else main_loop ws' p1
  end.

(** How [main] gets to the device: [-h] or [--help] given, [open]
    failed, or the device opened and [write] answered the Create event
    with [create_wr]. *)
Inductive startup :=
  | ArgHelp
  | OpenFailed
  | Opened (create_wr : write_res).

Definition process_init : process :=
  {| kbd := kbd_init; written := []; leds := [] |}.

(** [main]: the exit status, [None] while the process waits in
    [poll], and the state of the process. *)
Definition main (st : startup) (ws : list wakeup) : option Z * process :=
  match st with
  | ArgHelp => (Some EXIT_SUCCESS, process_init)
  | OpenFailed => (Some EXIT_FAILURE, process_init)
  | Opened create_wr =>
      let '(ret, out) := create create_wr in
      let p0 := {| kbd := kbd_init; written := out; leds := [] |} in
      if negb (ret =? 0) then (Some EXIT_FAILURE, p0)
      else
        let '(stopped, p1) := main_loop ws p0 in
        if stopped then
          (Some EXIT_SUCCESS,
           {| kbd := kbd p1; written := written p1 ++ destroy;
              leds := leds p1 |})
        else (None, p1)
  end.

(** ** State invariants *)

(** The arrays have their declared sizes and the two counters stay
    inside them. *)
Definition tracker_wf (s : kbd_state) : Prop :=
  length (key_codes s) = 6%nat /\ 0 <= num_keys_pressed s <= 6.

Definition escape_wf (s : kbd_state) : Prop :=
  length (escape_buf s) = 8%nat /\ 0 <= escape_len s <= 7.

Definition kbd_wf (s : kbd_state) : Prop := tracker_wf s /\ escape_wf s.

(** No key is held: the tracker is as [clear_keys] leaves it. *)
Definition tracker_empty (s : kbd_state) : Prop :=
  num_keys_pressed s = 0 /\ key_codes s = replicate 6 0
  /\ modifier_keys s = 0.

(** The 8-byte report with modifier byte [m] and the single key [k]. *)
Definition report1 (m k : Z) : uhid_event :=
  EvInput {| in_data := [m; 0; k; 0; 0; 0; 0; 0]; in_size := 8 |}.

(** The all-zero report. *)
Definition report0 : uhid_event := report1 0 0.

(** ** Vocabulary of the statements *)

(** The codes held: the first [num_keys_pressed] slots of the array. *)
Definition pressed (s : kbd_state) : list Z :=
  take (Z.to_nat (num_keys_pressed s)) (key_codes s).

(** The slots past [num_keys_pressed] are zero. *)
Definition trailing_zero (s : kbd_state) : Prop :=
  forall i, num_keys_pressed s <= i < 6 -> rd (key_codes s) i = 0.

(** The reports of one byte, given what [resolve] found. *)
Definition reports_of (c : Z) (r : resolved) : list uhid_event :=
  match r with
  | Continue => []
  | Code hid_code =>
      if hid_code =? 0 then []
      else [report1 (if needs_shift c hid_code then 2 else 0) hid_code;
            report0]
  end.

(** A trace of taps: press reports holding one nonzero code, each
    followed by the all-zero release report. *)
Inductive tap_trace : list uhid_event -> Prop :=
  | tap_nil : tap_trace []
  | tap_cons m k out :
      k <> 0 -> tap_trace out ->
      tap_trace (report1 m k :: report0 :: out).

(** A wakeup in which only stdin is readable and [read] returns
    [buf]. *)
Definition stdin_wakeup (buf : list Z) : wakeup :=
  {| poll_ret := 1; revents0 := POLLIN; revents1 := 0;
     stdin_rd := InData buf; uhid_rd := DevHup |}.

(** The left-shift bit (0x02) of the modifier byte of a report. *)
Definition shift_bit (e : uhid_event) : bool :=
  match e with
  | EvInput r => Z.testbit (rd (in_data r) 0) 1
  | _ => false
  end.

(** The buffer holds ESC '[' and waits for the third byte. *)
Definition in_csi (s : kbd_state) : Prop :=
  escape_len s = 2 /\ length (escape_buf s) = 8%nat
  /\ rd (escape_buf s) 0 = 27 /\ rd (escape_buf s) 1 = ch "[".

(** The state after the chunk ESC '[' from the initial state. *)
Definition csi_state : kbd_state :=
  (keyboard_loop [27; ch "["] kbd_init).1.

(** A sequence of [add_key] calls with no [remove_key] in between. *)
Definition press_all (codes : list Z) (s : kbd_state) : kbd_state :=
  foldl (fun s c => add_key c s) s codes.

(** Two keys held, 0x04 and 0x05. *)
Definition two_keys : kbd_state :=
  press_all [0x04; 0x05] kbd_init.

Definition is_destroy (e : uhid_event) : bool :=
  match e with EvDestroy => true | _ => false end.

Definition is_create (e : uhid_event) : bool :=
  match e with EvCreate _ => true | _ => false end.

(** The number of Destroy events among the events written. *)
Definition count_destroy (out : list uhid_event) : nat :=
  length (List.filter is_destroy out).

(** The turn gets as far as the [read] on the device: [poll] did not
    fail, neither source hung up, [keyboard] (if it ran) returned 0,
    and the device is readable. *)
Definition reads_device (w : wakeup) (p : process) : bool :=
  negb (poll_ret w <? 0)
  && negb (has_flag (revents0 w) POLLHUP)
  && negb (has_flag (revents1 w) POLLHUP)
  && negb (run_keyboard w p).1
  && has_flag (revents1 w) POLLIN.

(** The process right after a successful [create]. *)
Definition process_created : process :=
  {| kbd := kbd_init; written := [create_event]; leds := [] |}.

(** A wakeup in which only the device is readable and [read] answers
    [r]. *)
Definition uhid_wakeup (r : uhid_read) : wakeup :=
  {| poll_ret := 1; revents0 := 0; revents1 := POLLIN;
     stdin_rd := InHup; uhid_rd := r |}.

(** The invariant of the key tracker: the array has its six slots, the
    count is inside it, no code is held twice and the slots past the
    count are zero. *)
Definition tracker_inv (s : kbd_state) : Prop :=
  tracker_wf s /\ NoDup (pressed s) /\ trailing_zero s.

(** A report the descriptor allows: modifier byte 0 or left shift,
    reserved byte 0, one key slot holding a usage code up to the
    logical maximum 0x65, the other slots zero. *)
Definition report_ok (e : uhid_event) : Prop :=
  exists m k, e = report1 m k /\ (m = 0 \/ m = 0x02) /\ 0 <= k <= 0x65.

(** The whole keyboard state is inside its arrays and the tracker
    invariant holds. *)
Definition kbd_inv (s : kbd_state) : Prop :=
  tracker_inv s /\ escape_wf s.

(** The buffer holds three bytes or more and the third is not the final
    byte of an arrow sequence, so [process_escape_sequence] will
    resolve nothing. *)
Definition stuck (s : kbd_state) : Prop :=
  length (escape_buf s) = 8%nat /\ 3 <= escape_len s <= 7
  /\ arrow_code (rd (escape_buf s) 2) = 0.

(** The state after the chunk ESC '[' 'Z' from the initial state. *)
Definition stuck_state : kbd_state :=
  (keyboard_loop [27; ch "["; ch "Z"] kbd_init).1.

(** What [event] prints for a whole event: the LED flags of an Output
    event that carries an LED report. *)
Definition led_of (ev : uhid_dev_event) : option Z :=
  if ev_type ev =? UHID_OUTPUT then handle_output (ev_output ev) else None.

(** A turn in which [poll] succeeds, nothing hung up, stdin has no
    input and the device delivers the whole event [ev]. *)
Definition device_turn (w : wakeup) (ev : uhid_dev_event) : Prop :=
  0 <= poll_ret w
  /\ has_flag (revents0 w) POLLHUP = false
  /\ has_flag (revents1 w) POLLHUP = false
  /\ has_flag (revents0 w) POLLIN = false
  /\ has_flag (revents1 w) POLLIN = true
  /\ uhid_rd w = DevEvent ev.

(** An LED report with flags [f], as the kernel sends it. *)
Definition led_event (f : Z) : uhid_dev_event :=
  {| ev_type := UHID_OUTPUT;
     ev_output := {| out_data := [0x2; f]; out_size := 2;
                     rtype := UHID_OUTPUT_REPORT |} |}.

(** The printable characters the mapping table leaves out: the double
    quote (34) and + : < > ? _ { | } ~. *)
Definition unmapped_printable : list Z :=
  [34; ch "+"; ch ":"; ch "<"; ch ">"; ch "?"; ch "_"; ch "{"; ch "|";
   ch "}"; ch "~"].

(** The control characters the mapping table knows: backspace, tab,
    line feed, carriage return and ESC. *)
Definition mapped_control : list Z := [8; 9; 10; 13; 27].

(** The symbols of the digit row, each with the digit of its key. *)
Definition digit_row_symbols : list (Z * Z) :=
  [(ch "!", ch "1"); (ch "@", ch "2"); (ch "#", ch "3"); (ch "$", ch "4");
   (ch "%", ch "5"); (ch "^", ch "6"); (ch "&", ch "7"); (ch "*", ch "8");
   (ch "(", ch "9"); (ch ")", ch "0")].

(** A lowercase letter or a digit. *)
Definition lower_or_digit (c : Z) : Prop :=
  ch "a" <= c <= ch "z" \/ ch "0" <= c <= ch "9".

(** * Proofs *)

(** Replace character literals by their values. *)
Ltac chars :=
  repeat match goal with
  | |- context [ch ?a] =>
      let v := eval vm_compute in (ch a) in change (ch a) with v
  | H : context [ch ?a] |- _ =>
      let v := eval vm_compute in (ch a) in change (ch a) with v in H
  end.

Lemma between_spec lo hi c : between lo hi c = true <-> lo <= c <= hi.
Proof. unfold between. rewrite andb_true_iff, !Z.leb_le. tauto. Qed.

Lemma between_false lo hi c :
  between lo hi c = false <-> c < lo \/ hi < c.
Proof.
  unfold between. rewrite andb_false_iff, !Z.leb_gt. tauto.
Qed.

(** *** The key tracker *)

Lemma rd_lookup (a : list Z) i x :
  0 <= i -> a !! Z.to_nat i = Some x -> rd a i = x.
Proof. intros _ H. unfold rd. rewrite H. reflexivity. Qed.

Lemma rd_replicate_0 n i : rd (replicate n 0) i = 0.
Proof.
  unfold rd. destruct (replicate n 0 !! Z.to_nat i) eqn:E; [|reflexivity].
  apply lookup_replicate in E as [-> _]. reflexivity.
Qed.

Lemma rd_insert_eq (a : list Z) i x :
  (Z.to_nat i < length a)%nat -> rd (<[Z.to_nat i := x]> a) i = x.
Proof. intros H. unfold rd. rewrite list_lookup_insert_eq; auto. Qed.

(** The scan of [add_key] finds [c] exactly when [c] is held. *)
Lemma scan_pressed (kc : list Z) c n :
  0 <= n -> (Z.to_nat n <= length kc)%nat ->
  existsb (fun i => rd kc i =? c) (seqZ 0 n) = true
  <-> c ∈ take (Z.to_nat n) kc.
Proof.
  intros Hn Hlen. rewrite existsb_exists, elem_of_take. split.
  - intros (i & Hi & Heq). apply list_elem_of_In, elem_of_seqZ in Hi.
    apply Z.eqb_eq in Heq. exists (Z.to_nat i). split; [|lia].
    destruct (lookup_lt_is_Some_2 kc (Z.to_nat i)) as [y Hy]; [lia|].
    rewrite Hy. f_equal. rewrite <- Heq. symmetry.
    apply rd_lookup; [lia | exact Hy].
  - intros (i & Hi & Hlt). exists (Z.of_nat i). split.
    + apply list_elem_of_In, elem_of_seqZ. lia.
    + apply Z.eqb_eq. unfold rd. rewrite Nat2Z.id, Hi. reflexivity.
Qed.

Lemma scan_not_pressed (kc : list Z) c n :
  0 <= n -> (Z.to_nat n <= length kc)%nat ->
  existsb (fun i => rd kc i =? c) (seqZ 0 n) = false
  <-> c ∉ take (Z.to_nat n) kc.
Proof.
  intros Hn Hlen. rewrite <- scan_pressed by assumption.
  destruct (existsb _ _); split; congruence.
Qed.

(** [add_key] with six keys held changes nothing. *)
Lemma add_key_full c s : 6 <= num_keys_pressed s -> add_key c s = s.
Proof.
  intros H. unfold add_key.
  destruct (Z.leb_spec 6 (num_keys_pressed s)); [reflexivity | lia].
Qed.

(** [add_key] of a code that is held changes nothing. *)
Lemma add_key_present c s :
  tracker_wf s -> c ∈ pressed s -> add_key c s = s.
Proof.
  intros (Hkc & Hn) Hin. unfold add_key.
  destruct (6 <=? num_keys_pressed s); [reflexivity|].
  apply scan_pressed in Hin; [|lia..]. rewrite Hin. reflexivity.
Qed.

(** [add_key] of a new code with room left stores it in the first free
    slot. *)
Lemma add_key_new c s :
  tracker_wf s -> num_keys_pressed s < 6 -> c ∉ pressed s ->
  add_key c s =
    set_keys (<[Z.to_nat (num_keys_pressed s) := c]> (key_codes s))
             (num_keys_pressed s + 1) s.
Proof.
  intros (Hkc & Hn) Hlt Hin. unfold add_key.
  destruct (Z.leb_spec 6 (num_keys_pressed s)); [lia|].
  apply scan_not_pressed in Hin; [|lia..]. rewrite Hin. reflexivity.
Qed.

Lemma pressed_add_key_new c s :
  tracker_wf s -> num_keys_pressed s < 6 -> c ∉ pressed s ->
  pressed (add_key c s) = pressed s ++ [c].
Proof.
  intros Hwf Hlt Hin. rewrite add_key_new by assumption.
  destruct Hwf as (Hkc & Hn). unfold pressed; simpl.
  replace (Z.to_nat (num_keys_pressed s + 1))
    with (S (Z.to_nat (num_keys_pressed s))) by lia.
  erewrite take_S_r by (apply list_lookup_insert_eq; lia).
  rewrite take_insert_ge by lia. reflexivity.
Qed.

Lemma add_key_wf c s : tracker_wf s -> tracker_wf (add_key c s).
Proof.
  intros Hwf. pose proof Hwf as (Hkc & Hn). unfold add_key.
  destruct (Z.leb_spec 6 (num_keys_pressed s)); [assumption|].
  destruct (existsb _ _); [assumption|].
  unfold tracker_wf; simpl. rewrite length_insert. repeat split; auto; lia.
Qed.

(** The scan of [remove_key] passes over the slots that do not hold
    the code. *)
Lemma remove_key_from_skip idx1 idx2 c s :
  (forall i, i ∈ idx1 -> rd (key_codes s) i <> c) ->
  remove_key_from (idx1 ++ idx2) c s = remove_key_from idx2 c s.
Proof.
  induction idx1 as [|i idx1 IH]; intros H; simpl; [reflexivity|].
  destruct (Z.eqb_spec (rd (key_codes s) i) c) as [Heq|_].
  - exfalso. apply (H i); [left | exact Heq].
  - apply IH. intros j Hj. apply H. right. exact Hj.
Qed.

(** [remove_key] of a code that is not held changes nothing. *)
Lemma remove_key_absent c s :
  tracker_wf s -> c ∉ pressed s -> remove_key c s = s.
Proof.
  intros (Hkc & Hn) Hin. unfold remove_key.
  rewrite <- (app_nil_r (seqZ _ _)), remove_key_from_skip; [reflexivity|].
  intros i Hi Heq. apply elem_of_seqZ in Hi. apply Hin.
  apply scan_pressed; [lia..|]. apply existsb_exists. exists i.
  split; [apply list_elem_of_In, elem_of_seqZ; lia | apply Z.eqb_eq, Heq].
Qed.

(** [remove_key] of the code in the last used slot clears that slot and
    moves nothing. *)
Lemma remove_key_last c s :
  tracker_wf s -> 0 < num_keys_pressed s ->
  rd (key_codes s) (num_keys_pressed s - 1) = c ->
  c ∉ take (Z.to_nat (num_keys_pressed s - 1)) (key_codes s) ->
  remove_key c s =
    set_keys (<[Z.to_nat (num_keys_pressed s - 1) := 0]> (key_codes s))
             (num_keys_pressed s - 1) s.
Proof.
  intros (Hkc & Hn) Hpos Hlast Hin. unfold remove_key.
  replace (seqZ 0 (num_keys_pressed s))
    with (seqZ 0 (num_keys_pressed s - 1) ++ [num_keys_pressed s - 1]).
  2:{ replace (num_keys_pressed s) with (num_keys_pressed s - 1 + 1) at 3
        by lia.
      rewrite seqZ_app by lia. f_equal. }
  rewrite remove_key_from_skip.
  - simpl. rewrite Hlast, Z.eqb_refl. unfold shift_keys_left.
    rewrite seqZ_nil by lia. reflexivity.
  - intros i Hi Heq. apply elem_of_seqZ in Hi. apply Hin.
    apply scan_pressed; [lia..|]. apply existsb_exists. exists i.
    split; [apply list_elem_of_In, elem_of_seqZ; lia | apply Z.eqb_eq, Heq].
Qed.

(** Pressing a new code and releasing it again restores the tracker. *)
Lemma add_remove_key c s :
  tracker_wf s -> trailing_zero s -> num_keys_pressed s < 6 ->
  c ∉ pressed s -> remove_key c (add_key c s) = s.
Proof.
  intros Hwf Hz Hlt Hin. pose proof (add_key_wf c s Hwf) as Hwf'.
  pose proof Hwf as (Hkc & Hn).
  rewrite add_key_new in * by assumption.
  rewrite remove_key_last; simpl; auto; try lia.
  - replace (num_keys_pressed s + 1 - 1) with (num_keys_pressed s) by lia.
    rewrite list_insert_insert_eq, list_insert_id'.
    + destruct s; reflexivity.
    + intros Hi. specialize (Hz (num_keys_pressed s) ltac:(lia)).
      unfold rd in Hz.
      destruct (key_codes s !! Z.to_nat (num_keys_pressed s)) eqn:E;
        simpl in Hz; [congruence|].
      apply lookup_ge_None in E. lia.
  - replace (num_keys_pressed s + 1 - 1) with (num_keys_pressed s) by lia.
    apply rd_insert_eq. lia.
  - replace (num_keys_pressed s + 1 - 1) with (num_keys_pressed s) by lia.
    rewrite take_insert_ge by lia. exact Hin.
Qed.

(** *** The tracker while no other key is held *)

Lemma press_release_empty c hid_code s :
  tracker_empty s ->
  press_release c hid_code s =
    (s, [report1 (if needs_shift c hid_code then 2 else 0) hid_code;
         report0]).
Proof.
  destruct s as [m kc n eb el]. intros (Hn & Hkc & Hm); simpl in *; subst.
  assert (Hfresh : forall m',
    let s1 := {| modifier_keys := m'; key_codes := replicate 6 0;
                 num_keys_pressed := 0; escape_buf := eb;
                 escape_len := el |} in
    tracker_wf s1 /\ trailing_zero s1 /\ hid_code ∉ pressed s1).
  { intros m'. split; [split; simpl; [reflexivity | lia]|]. split.
    - intros i _. apply rd_replicate_0.
    - unfold pressed; simpl. apply not_elem_of_nil. }
  unfold press_release.
  destruct (needs_shift c hid_code); simpl;
    [destruct (Hfresh (to_uchar (Z.lor 0 2))) as (Hwf & Hz & Hin)
    |destruct (Hfresh 0) as (Hwf & Hz & Hin)];
    rewrite add_remove_key by (auto; simpl; lia);
    rewrite add_key_new by (auto; simpl; lia); reflexivity.
Qed.

(** *** The translator *)

(** [resolve] touches the escape buffer only. *)
Lemma resolve_tracker c next s :
  key_codes (resolve c next s).2 = key_codes s
  /\ num_keys_pressed (resolve c next s).2 = num_keys_pressed s
  /\ modifier_keys (resolve c next s).2 = modifier_keys s.
Proof.
  unfold resolve, process_escape_sequence, add_to_escape_buf.
  repeat case_match; simplify_eq/=; auto.
Qed.

Lemma resolve_tracker_empty c next s :
  tracker_empty s -> tracker_empty (resolve c next s).2.
Proof.
  unfold tracker_empty.
  destruct (resolve_tracker c next s) as (-> & -> & ->). auto.
Qed.

Lemma keyboard_byte_empty c next s :
  tracker_empty s ->
  keyboard_byte c next s =
    ((resolve c next s).2, reports_of c (resolve c next s).1).
Proof.
  intros He. apply (resolve_tracker_empty c next) in He.
  unfold keyboard_byte. destruct (resolve c next s) as [[|h] s1]; simpl in *.
  - reflexivity.
  - destruct (h =? 0); [reflexivity|]. apply press_release_empty, He.
Qed.

(** The codes of the mapping table lie below the arrow codes. *)
Lemma ascii_to_hid_range c : 0 <= ascii_to_hid c <= 0x38.
Proof.
  unfold ascii_to_hid, to_uchar.
  repeat match goal with
  | |- context [between ?lo ?hi c] =>
      let E := fresh in
      destruct (between lo hi c) eqn:E;
        [apply between_spec in E; chars;
         rewrite Z.mod_small by lia; lia|]
  | |- context [if ?b then _ else _] => destruct b; [lia|]
  end; lia.
Qed.

Lemma ascii_to_hid_not_arrow c : is_arrow (ascii_to_hid c) = false.
Proof.
  pose proof (ascii_to_hid_range c) as H. unfold is_arrow.
  repeat match goal with
  | |- context [ascii_to_hid c =? ?k] =>
      destruct (Z.eqb_spec (ascii_to_hid c) k); [lia|]
  end. reflexivity.
Qed.

Lemma arrow_code_cases x :
  (arrow_code x = 0 /\ x <> ch "A" /\ x <> ch "B" /\ x <> ch "C"
   /\ x <> ch "D")
  \/ (arrow_code x <> 0 /\ is_arrow (arrow_code x) = true
      /\ ch "A" <= x <= ch "D").
Proof.
  unfold arrow_code.
  repeat match goal with
  | |- context [x =? ?k] =>
      destruct (Z.eqb_spec x k); [right; subst; chars; split; [|split];
        [discriminate | reflexivity | lia]|]
  end.
  left. auto.
Qed.

(** What [resolve] answers inside an escape sequence is [continue] or
    an arrow code. *)
Lemma resolve_in_escape c next s :
  0 < escape_len s ->
  (resolve c next s).1 = Continue
  \/ exists k, (resolve c next s).1 = Code k /\ k <> 0
               /\ is_arrow k = true.
Proof.
  intros Hlen. unfold resolve. destruct (Z.ltb_spec 0 (escape_len s)); [|lia].
  unfold process_escape_sequence.
  set (s1 := add_to_escape_buf c s).
  destruct (_ && _); simpl; [|left; reflexivity].
  destruct (arrow_code_cases (rd (escape_buf s1) 2))
    as [(-> & _)|(Hk & Ha & _)].
  - left. reflexivity.
  - apply Z.eqb_neq in Hk as Hk'. repeat (rewrite Hk'; simpl).
    right. eauto.
Qed.

(** What [resolve] answers outside an escape sequence is [continue]
    or the code of the mapping table. *)
Lemma resolve_normal c next s :
  escape_len s <= 0 ->
  (resolve c next s).1 = Continue
  \/ (resolve c next s).1 = Code (ascii_to_hid c).
Proof.
  intros Hlen. unfold resolve. destruct (Z.ltb_spec 0 (escape_len s)); [lia|].
  repeat case_match; simpl; auto.
Qed.

Lemma tap_trace_app out1 out2 :
  tap_trace out1 -> tap_trace out2 -> tap_trace (out1 ++ out2).
Proof.
  induction 1; intros H2; simpl; [exact H2|].
  constructor; auto.
Qed.

Lemma reports_of_tap c r : tap_trace (reports_of c r).
Proof.
  destruct r as [|k]; simpl; [constructor|].
  destruct (Z.eqb_spec k 0); repeat constructor; assumption.
Qed.

Lemma keyboard_byte_tap c next s :
  tracker_empty s ->
  tracker_empty (keyboard_byte c next s).1
  /\ tap_trace (keyboard_byte c next s).2.
Proof.
  intros He. rewrite keyboard_byte_empty by assumption. simpl. split.
  - apply resolve_tracker_empty, He.
  - apply reports_of_tap.
Qed.

Lemma keyboard_loop_tap buf s :
  tracker_empty s ->
  tracker_empty (keyboard_loop buf s).1
  /\ tap_trace (keyboard_loop buf s).2.
Proof.
  revert s. induction buf as [|c rest IH]; intros s He; simpl.
  - split; [assumption | constructor].
  - destruct (keyboard_byte_tap c (head rest) s He) as [He1 Ht1].
    destruct (keyboard_byte c (head rest) s) as [s1 out1]; simpl in *.
    destruct (IH s1 He1) as [He2 Ht2].
    destruct (keyboard_loop rest s1) as [s2 out2]; simpl in *.
    split; [assumption | apply tap_trace_app; assumption].
Qed.

Lemma keyboard_chunks_tap chunks s :
  tracker_empty s ->
  tracker_empty (keyboard_chunks chunks s).1
  /\ tap_trace (keyboard_chunks chunks s).2.
Proof.
  revert s. induction chunks as [|buf rest IH]; intros s He; simpl.
  - split; [assumption | constructor].
  - destruct (keyboard_loop_tap buf s He) as [He1 Ht1].
    destruct (keyboard_loop buf s) as [s1 out1]; simpl in *.
    destruct (IH s1 He1) as [He2 Ht2].
    destruct (keyboard_chunks rest s1) as [s2 out2]; simpl in *.
    split; [assumption | apply tap_trace_app; assumption].
Qed.

Lemma kbd_init_empty : tracker_empty kbd_init.
Proof. repeat split. Qed.

(** C10.  From a state in which no key is held, one input byte leaves
    the tracker with no key held and modifier byte 0, and the reports
    it writes form a trace of taps: every press report holds exactly
    one nonzero code, in byte 2, and every release report is all
    zero.  So it is after any input chunks from the initial state. *)
Theorem C10_tracker_empty_after_every_byte :
  (forall c next s,
      tracker_empty s ->
      tracker_empty (keyboard_byte c next s).1
      /\ tap_trace (keyboard_byte c next s).2)
  /\ (forall chunks,
         tracker_empty (keyboard_chunks chunks kbd_init).1
         /\ tap_trace (keyboard_chunks chunks kbd_init).2).
Proof.
  split.
  - apply keyboard_byte_tap.
  - intros chunks. apply keyboard_chunks_tap, kbd_init_empty.
Qed.

Lemma C10_witness :
  tracker_empty kbd_init
  /\ tracker_empty (keyboard_byte (ch "a") None kbd_init).1
  /\ tap_trace (keyboard_byte (ch "a") None kbd_init).2.
Proof.
  split; [apply kbd_init_empty|].
  apply (proj1 C10_tracker_empty_after_every_byte), kbd_init_empty.
Defined.

(** C4.  The byte 'q' from the initial state makes [keyboard] write
    the press report 00 00 14 00 00 00 00 00 and then the all-zero
    release report, and nothing else; the byte 'Q' writes the press
    report 02 00 14 00 00 00 00 00 and then the all-zero release
    report.  In a run of [main] these are the writes that follow the
    Create event. *)
Theorem C4_q_and_Q_reports :
  let report d := EvInput {| in_data := d; in_size := 8 |} in
  keyboard (InData [ch "q"]) kbd_init =
    (0, kbd_init, [report [0x00; 0x00; 0x14; 0; 0; 0; 0; 0];
                   report [0x00; 0x00; 0; 0; 0; 0; 0; 0]])
  /\ keyboard (InData [ch "Q"]) kbd_init =
    (0, kbd_init, [report [0x02; 0x00; 0x14; 0; 0; 0; 0; 0];
                   report [0x00; 0x00; 0; 0; 0; 0; 0; 0]])
  /\ written (main (Opened WrFull) [stdin_wakeup [ch "q"]]).2 =
       [create_event; report [0x00; 0x00; 0x14; 0; 0; 0; 0; 0];
        report [0x00; 0x00; 0; 0; 0; 0; 0; 0]]
  /\ written (main (Opened WrFull) [stdin_wakeup [ch "Q"]]).2 =
       [create_event; report [0x02; 0x00; 0x14; 0; 0; 0; 0; 0];
        report [0x00; 0x00; 0; 0; 0; 0; 0; 0]].
Proof. cbv zeta. repeat apply conj; reflexivity. Qed.

(** *** Shift synthesis *)

Lemma ascii_to_hid_case c :
  ch "a" <= c <= ch "z" ->
  ascii_to_hid c = ascii_to_hid (c - ch "a" + ch "A").
Proof.
  intros H. unfold ascii_to_hid.
  destruct (between (ch "a") (ch "z") c) eqn:E1.
  2:{ apply between_false in E1. lia. }
  destruct (between (ch "a") (ch "z") (c - ch "a" + ch "A")) eqn:E2.
  { apply between_spec in E2. chars. lia. }
  destruct (between (ch "A") (ch "Z") (c - ch "a" + ch "A")) eqn:E3.
  2:{ apply between_false in E3. chars. lia. }
  f_equal. lia.
Qed.

(** The two reports of a byte that is not dropped. *)
Lemma keyboard_byte_reports c next s press release :
  tracker_empty s ->
  (keyboard_byte c next s).2 = [press; release] ->
  release = report0
  /\ ((escape_len s <= 0
       /\ press = report1 (if between (ch "A") (ch "Z") c then 0x02 else 0)
                          (ascii_to_hid c))
      \/ (0 < escape_len s
          /\ exists k, is_arrow k = true /\ press = report1 0 k)).
Proof.
  intros He H. rewrite keyboard_byte_empty in H by assumption. simpl in H.
  destruct (Z.lt_ge_cases 0 (escape_len s)) as [Hl|Hl].
  - destruct (resolve_in_escape c next s Hl) as [E|(k & E & Hk & Ha)];
      rewrite E in H; simpl in H; [discriminate|].
    destruct (k =? 0); [discriminate|].
    unfold needs_shift in H. rewrite Ha, andb_false_r in H.
    simplify_eq. split; [reflexivity|]. right. eauto.
  - destruct (resolve_normal c next s Hl) as [E|E];
      rewrite E in H; simpl in H; [discriminate|].
    destruct (_ =? 0); [discriminate|].
    unfold needs_shift in H.
    rewrite ascii_to_hid_not_arrow, andb_true_r in H.
    simplify_eq. split; [reflexivity|]. left. auto.
Qed.

(** *** The escape buffer *)

Lemma add_to_escape_buf_room c s :
  0 <= escape_len s < 7 ->
  add_to_escape_buf c s =
    set_escape (<[Z.to_nat (escape_len s) := c]> (escape_buf s))
               (escape_len s + 1) s.
Proof.
  intros H. unfold add_to_escape_buf, to_size_t.
  rewrite Z.mod_small by lia.
  destruct (Z.ltb_spec (escape_len s) (8 - 1)); [reflexivity | lia].
Qed.

Lemma rd_insert_ne (a : list Z) i j x :
  0 <= i -> 0 <= j -> i <> j -> rd (<[Z.to_nat i := x]> a) j = rd a j.
Proof.
  intros Hi Hj Hne. unfold rd. rewrite list_lookup_insert_ne by lia.
  reflexivity.
Qed.

(** The third byte of a sequence: an arrow code empties the buffer,
    any other byte stays in it. *)
Lemma csi_third_byte x s :
  in_csi s ->
  process_escape_sequence (add_to_escape_buf x s) =
    if arrow_code x =? 0
    then (0, set_escape (<[2%nat := x]> (escape_buf s)) 3 s)
    else (arrow_code x, set_escape (<[2%nat := x]> (escape_buf s)) 0 s).
Proof.
  intros (Hlen & Hsize & H0 & H1).
  rewrite add_to_escape_buf_room by lia. rewrite Hlen.
  unfold process_escape_sequence. simpl escape_len. simpl escape_buf.
  rewrite (rd_insert_ne _ 2 0), (rd_insert_ne _ 2 1) by lia.
  rewrite (rd_insert_eq _ 2) by (rewrite Hsize; simpl; lia).
  rewrite H0, H1, !Z.eqb_refl. simpl.
  destruct (arrow_code x =? 0); reflexivity.
Qed.

Lemma csi_third_byte_reports x next s :
  in_csi s -> tracker_empty s ->
  keyboard_byte x next s =
    ((process_escape_sequence (add_to_escape_buf x s)).2,
     if arrow_code x =? 0 then []
     else [report1 0 (arrow_code x); report0]).
Proof.
  intros Hc He. rewrite keyboard_byte_empty by assumption.
  pose proof Hc as (Hlen & _). unfold resolve. rewrite Hlen. simpl.
  rewrite csi_third_byte by assumption.
  destruct (arrow_code_cases x) as [(E & _)|(Hk & Ha & _)].
  - rewrite E. reflexivity.
  - apply Z.eqb_neq in Hk. repeat (rewrite Hk; simpl).
    unfold needs_shift. rewrite Ha, andb_false_r. reflexivity.
Qed.

Lemma csi_state_in_csi : in_csi csi_state /\ tracker_empty csi_state.
Proof. repeat split. Qed.

(** C1, amended.  With ESC '[' in the buffer, a third byte 'A', 'B',
    'C' or 'D' resolves to the usage code 0x52, 0x51, 0x4f or 0x50,
    the buffer length goes back to 0, and the translator writes the
    press report of that code, without shift, and the release report.
    Any other third byte produces no usage code and no report; it
    stays in the buffer, whose length is then 3. *)
Theorem C1_third_byte_of_escape_sequence :
  forall x next s,
    in_csi s ->
    let r := process_escape_sequence (add_to_escape_buf x s) in
    let arrow code :=
      r.1 = code /\ escape_len r.2 = 0
      /\ (tracker_empty s ->
          keyboard_byte x next s = (r.2, [report1 0 code; report0])) in
    (x = ch "A" -> arrow 0x52)
    /\ (x = ch "B" -> arrow 0x51)
    /\ (x = ch "C" -> arrow 0x4f)
    /\ (x = ch "D" -> arrow 0x50)
    /\ (x <> ch "A" -> x <> ch "B" -> x <> ch "C" -> x <> ch "D" ->
        r.1 = 0 /\ escape_len r.2 = 3
        /\ (tracker_empty s -> keyboard_byte x next s = (r.2, []))).
Proof.
  intros x next s Hc r arrow. subst r arrow. cbv beta.
  pose proof (csi_third_byte_reports x next s Hc) as Hb.
  rewrite csi_third_byte in * by assumption.
  repeat apply conj.
  1-4: intros ->; repeat apply conj;
    [reflexivity | reflexivity | intros He; rewrite Hb by assumption;
                                 reflexivity].
  intros HA HB HC HD.
  destruct (arrow_code_cases x) as [(E & _)|(_ & _ & Hr)];
    [|chars; lia].
  rewrite E in *. simpl. auto.
Qed.

Lemma C1_witness :
  in_csi csi_state
  /\ (process_escape_sequence (add_to_escape_buf (ch "A") csi_state)).1
     = 0x52
  /\ (keyboard_byte (ch "Z") None csi_state).2 = [].
Proof.
  split; [apply csi_state_in_csi|].
  destruct (C1_third_byte_of_escape_sequence (ch "A") None csi_state
              (proj1 csi_state_in_csi)) as (HA & _).
  destruct (C1_third_byte_of_escape_sequence (ch "Z") None csi_state
              (proj1 csi_state_in_csi)) as (_ & _ & _ & _ & HZ).
  split.
  - apply (HA eq_refl).
  - destruct HZ as (_ & _ & HZ); try (vm_compute; discriminate).
    rewrite (HZ (proj2 csi_state_in_csi)). reflexivity.
Defined.

(** After ESC '[' 'Z' the buffer keeps growing: the next four bytes
    are stored, the fifth meets the full buffer and empties it, and
    only the sixth is translated again. *)
Example unknown_sequence_until_overflow :
  (keyboard_loop [ch "a"; ch "b"; ch "c"; ch "d"] csi_state).2 = []
  /\ escape_len
       (keyboard_loop [ch "Z"; ch "a"; ch "b"; ch "c"; ch "d"]
                      csi_state).1 = 7
  /\ keyboard_loop [ch "Z"; ch "a"; ch "b"; ch "c"; ch "d"; ch "e"; ch "f"]
                   csi_state
     = (set_escape [27; ch "["; ch "Z"; ch "a"; ch "b"; ch "c"; ch "d"; 0]
                   0 kbd_init,
        [report1 0 0x09; report0]).
Proof. repeat apply conj; reflexivity. Qed.

(** C1 as stated fails: after ESC '[' 'Z' the buffer is not reset, its
    length is 3. *)
Lemma C1_counterexample :
  in_csi csi_state
  /\ escape_len
       (process_escape_sequence (add_to_escape_buf (ch "Z") csi_state)).2
     = 3
  /\ escape_len (keyboard_byte (ch "Z") None csi_state).1 <> 0.
Proof.
  split; [apply csi_state_in_csi|]. split; [reflexivity|].
  vm_compute. discriminate.
Qed.

(** *** Shift and the reports of letters and arrows *)

(** Outside an escape sequence every byte but an ESC followed by '['
    resolves to its code of the mapping table, and the buffer is left
    alone. *)
Lemma resolve_normal_code c next s :
  escape_len s <= 0 -> c <> 27 \/ next <> Some (ch "[") ->
  resolve c next s = (Code (ascii_to_hid c), s).
Proof.
  intros Hlen H. unfold resolve.
  destruct (Z.ltb_spec 0 (escape_len s)); [lia|].
  destruct (Z.eqb_spec c 27) as [Hc|Hc]; [|reflexivity].
  destruct next as [n|]; [|reflexivity].
  destruct (Z.eqb_spec n (ch "[")) as [Hn|Hn]; [|reflexivity].
  exfalso. destruct H as [H|H]; [exact (H Hc)|]. apply H. congruence.
Qed.

(** What such a byte makes the translator write. *)
Lemma keyboard_byte_normal c next s :
  tracker_empty s -> escape_len s <= 0 ->
  c <> 27 \/ next <> Some (ch "[") ->
  keyboard_byte c next s =
    (s, if ascii_to_hid c =? 0 then []
        else [report1 (if between (ch "A") (ch "Z") c then 0x02 else 0)
                      (ascii_to_hid c);
              report0]).
Proof.
  intros He Hlen H. rewrite keyboard_byte_empty by assumption.
  rewrite resolve_normal_code by assumption. simpl.
  unfold needs_shift. rewrite ascii_to_hid_not_arrow, andb_true_r.
  reflexivity.
Qed.

Lemma ascii_to_hid_letter c :
  (ch "A" <= c <= ch "Z" -> ascii_to_hid c = 0x04 + (c - ch "A"))
  /\ (ch "a" <= c <= ch "z" -> ascii_to_hid c = 0x04 + (c - ch "a")).
Proof.
  split; intros H; unfold ascii_to_hid, to_uchar.
  - destruct (between (ch "a") (ch "z") c) eqn:E1.
    { apply between_spec in E1. chars. lia. }
    destruct (between (ch "A") (ch "Z") c) eqn:E2.
    2:{ apply between_false in E2. lia. }
    chars. apply Z.mod_small. lia.
  - destruct (between (ch "a") (ch "z") c) eqn:E1.
    2:{ apply between_false in E1. lia. }
    chars. apply Z.mod_small. lia.
Qed.

(** C3.  A lowercase letter and its uppercase form have the same usage
    code.  With no key held and outside an escape sequence, an
    uppercase letter makes the translator write the press report of
    its code with modifier byte 0x02 (left shift) and then the
    all-zero release report; a lowercase letter the same two reports
    with modifier byte 0; any other byte either nothing (no code) or
    the press report of its code with modifier byte 0 and the release
    report.  The final byte 'A', 'B', 'C' or 'D' of an arrow sequence
    makes it write the press report of the arrow code with modifier
    byte 0 and the release report.  And whenever a byte makes the
    translator write a press and a release report, the press report
    has the left-shift bit set exactly when the byte is an uppercase
    letter met outside an escape sequence, and the release report is
    all zero, so its shift bit is clear. *)
Theorem C3_shift_exactly_for_uppercase_letters :
  (forall c,
      ch "a" <= c <= ch "z" ->
      ascii_to_hid c = ascii_to_hid (c - ch "a" + ch "A"))
  /\ (forall c next s,
         tracker_empty s -> escape_len s <= 0 ->
         ch "A" <= c <= ch "Z" ->
         keyboard_byte c next s =
           (s, [report1 0x02 (0x04 + (c - ch "A")); report0])
         /\ shift_bit (report1 0x02 (0x04 + (c - ch "A"))) = true)
  /\ (forall c next s,
         tracker_empty s -> escape_len s <= 0 ->
         ch "a" <= c <= ch "z" ->
         keyboard_byte c next s =
           (s, [report1 0 (0x04 + (c - ch "a")); report0])
         /\ shift_bit (report1 0 (0x04 + (c - ch "a"))) = false)
  /\ (forall c next s,
         tracker_empty s -> escape_len s <= 0 ->
         c <> 27 \/ next <> Some (ch "[") ->
         ~ ch "A" <= c <= ch "Z" ->
         keyboard_byte c next s =
           (s, if ascii_to_hid c =? 0 then []
               else [report1 0 (ascii_to_hid c); report0]))
  /\ (forall x next s,
         in_csi s -> tracker_empty s ->
         x ∈ [ch "A"; ch "B"; ch "C"; ch "D"] ->
         is_arrow (arrow_code x) = true
         /\ (keyboard_byte x next s).2 = [report1 0 (arrow_code x); report0]
         /\ shift_bit (report1 0 (arrow_code x)) = false)
  /\ (forall c next s press release,
         tracker_empty s ->
         (keyboard_byte c next s).2 = [press; release] ->
         (escape_len s <= 0 ->
          press = report1 (if between (ch "A") (ch "Z") c then 0x02 else 0)
                          (ascii_to_hid c)
          /\ (shift_bit press = true <-> ch "A" <= c <= ch "Z"))
         /\ (0 < escape_len s ->
             (exists k, is_arrow k = true /\ press = report1 0 k)
             /\ shift_bit press = false)
         /\ release = report0
         /\ shift_bit release = false).
Proof.
  split; [exact ascii_to_hid_case|].
  split; [|split; [|split; [|split]]].
  - intros c next s He Hlen Hc. split; [|reflexivity].
    rewrite keyboard_byte_normal by (auto; left; chars; lia).
    rewrite (proj1 (ascii_to_hid_letter c) Hc).
    apply between_spec in Hc as Hb. rewrite Hb.
    destruct (Z.eqb_spec (0x04 + (c - ch "A")) 0); [lia | reflexivity].
  - intros c next s He Hlen Hc. split; [|reflexivity].
    rewrite keyboard_byte_normal by (auto; left; chars; lia).
    rewrite (proj2 (ascii_to_hid_letter c) Hc).
    destruct (between (ch "A") (ch "Z") c) eqn:Hb.
    { apply between_spec in Hb. chars. lia. }
    destruct (Z.eqb_spec (0x04 + (c - ch "a")) 0); [lia | reflexivity].
  - intros c next s He Hlen Hn Hc.
    rewrite keyboard_byte_normal by assumption.
    destruct (between (ch "A") (ch "Z") c) eqn:Hb; [|reflexivity].
    apply between_spec in Hb. contradiction.
  - intros x next s Hcsi He Hx.
    rewrite csi_third_byte_reports by assumption.
    repeat (apply elem_of_cons in Hx as [->|Hx];
            [repeat split; reflexivity|]).
    apply elem_of_nil in Hx. contradiction.
  - intros c next s press release He H.
    destruct (keyboard_byte_reports c next s press release He H)
      as (-> & [(Hl & ->)|(Hl & k & Ha & ->)]).
    + split; [|split; [intros; lia | split; reflexivity]].
      intros _. split; [reflexivity|].
      rewrite <- between_spec.
      destruct (between (ch "A") (ch "Z") c); simpl; split;
        auto; discriminate.
    + split; [intros; lia|]. split; [|split; reflexivity].
      intros _. split; [eauto | reflexivity].
Qed.

Lemma C3_witness :
  ascii_to_hid (ch "q") = ascii_to_hid (ch "Q")
  /\ keyboard_byte (ch "Q") None kbd_init
     = (kbd_init, [report1 0x02 0x14; report0])
  /\ keyboard_byte (ch "q") None kbd_init
     = (kbd_init, [report1 0 0x14; report0])
  /\ keyboard_byte (ch "1") None kbd_init
     = (kbd_init, [report1 0 0x1e; report0])
  /\ (keyboard_byte (ch "A") None csi_state).2 = [report1 0 0x52; report0]
  /\ shift_bit (report1 0x02 0x14) = true
  /\ shift_bit report0 = false.
Proof.
  destruct C3_shift_exactly_for_uppercase_letters
    as (Hcase & Hupper & Hlower & Hother & Harrow & Hany).
  split.
  { apply (Hcase (ch "q")). vm_compute. split; discriminate. }
  split.
  { apply (Hupper (ch "Q") None kbd_init kbd_init_empty).
    - simpl. lia.
    - vm_compute. split; discriminate. }
  split.
  { apply (Hlower (ch "q") None kbd_init kbd_init_empty).
    - simpl. lia.
    - vm_compute. split; discriminate. }
  split.
  { apply (Hother (ch "1") None kbd_init kbd_init_empty).
    - simpl. lia.
    - left. discriminate.
    - vm_compute. intros [H _]. apply H. reflexivity. }
  split.
  { apply (Harrow (ch "A") None csi_state);
      [apply csi_state_in_csi.. | left]. }
  destruct (Hany (ch "Q") None kbd_init (report1 0x02 0x14) report0
              kbd_init_empty eq_refl) as (Hn & _ & _ & Hr).
  split; [|exact Hr].
  apply (proj2 (Hn ltac:(vm_compute; discriminate))).
  vm_compute. split; discriminate.
Defined.

(** *** ESC '[' 'A' across chunk boundaries *)

(** C2, amended.  From a state with no key held and an empty escape
    buffer: when ESC and '[' arrive in the same chunk (the three bytes
    in one chunk, or the chunk ESC '[' followed by the chunk 'A'), the
    program writes exactly the press report of 0x52 and the release
    report, and nothing for the partial states ESC and ESC '['.  When
    a chunk ends right after ESC, that ESC is a standalone Escape key
    (press of 0x29 and release), and the '[' and 'A' of the next chunk
    are ordinary characters (0x2f, then 0x04 with shift). *)
Theorem C2_arrow_up_needs_ESC_and_bracket_in_one_chunk :
  forall s,
    tracker_empty s -> escape_wf s -> escape_len s = 0 ->
    let up := [report1 0 0x52; report0] in
    (keyboard_chunks [[27; ch "["; ch "A"]] s).2 = up
    /\ (keyboard_byte 27 (Some (ch "[")) s).2 = []
    /\ (forall next,
           (keyboard_byte (ch "[") next
              (keyboard_byte 27 (Some (ch "[")) s).1).2 = [])
    /\ (keyboard_chunks [[27; ch "["]] s).2 = []
    /\ (keyboard_chunks [[27; ch "["]; [ch "A"]] s).2 = up
    /\ (keyboard_chunks [[27]] s).2 = [report1 0 0x29; report0]
    /\ (keyboard_chunks [[27]; [ch "["; ch "A"]] s).2 =
         [report1 0 0x29; report0; report1 0 0x2f; report0;
          report1 0x02 0x04; report0].
Proof.
  intros [m kc n eb el] (Hn & Hkc & Hm) (Hsize & _) Hlen up.
  simpl in *. subst.
  do 9 (destruct eb as [|? eb]; try discriminate Hsize).
  repeat apply conj; try intros next; vm_compute; reflexivity.
Qed.

Lemma C2_witness :
  (keyboard_chunks [[27; ch "["]; [ch "A"]] kbd_init).2 =
    [report1 0 0x52; report0].
Proof.
  apply (C2_arrow_up_needs_ESC_and_bracket_in_one_chunk kbd_init).
  - apply kbd_init_empty.
  - split; [reflexivity | simpl; lia].
  - reflexivity.
Defined.

(** C2 as stated fails for the split after ESC: six reports are
    written and none of them carries 0x52. *)
Lemma C2_counterexample :
  (keyboard_chunks [[27]; [ch "["; ch "A"]] kbd_init).2
    <> [report1 0 0x52; report0]
  /\ (report1 0 0x52
        ∉ (keyboard_chunks [[27]; [ch "["; ch "A"]] kbd_init).2)
  /\ length (keyboard_chunks [[27]; [ch "["; ch "A"]] kbd_init).2 = 6%nat.
Proof.
  split; [vm_compute; discriminate|]. split; [|reflexivity].
  vm_compute. intros H.
  repeat (apply elem_of_cons in H as [H|H]; [discriminate H|]).
  apply elem_of_nil in H. exact H.
Qed.

(** *** Pressing more keys than the report holds *)

(** The two ways [add_key] ends. *)
Lemma add_key_cases c s :
  tracker_wf s ->
  (add_key c s = s /\ (num_keys_pressed s = 6 \/ (c ∈ pressed s)))
  \/ (num_keys_pressed s < 6 /\ (c ∉ pressed s)
      /\ pressed (add_key c s) = pressed s ++ [c]
      /\ num_keys_pressed (add_key c s) = num_keys_pressed s + 1).
Proof.
  intros Hwf. pose proof Hwf as (Hkc & Hn).
  destruct (Z.lt_ge_cases (num_keys_pressed s) 6) as [Hlt|Hge].
  - destruct (decide (c ∈ pressed s)) as [Hin|Hin].
    + left. split; [apply add_key_present; assumption | auto].
    + right. repeat split; auto.
      * apply pressed_add_key_new; assumption.
      * rewrite add_key_new by assumption. reflexivity.
  - left. split; [apply add_key_full; lia | left; lia].
Qed.

Lemma length_pressed s :
  tracker_wf s -> Z.of_nat (length (pressed s)) = num_keys_pressed s.
Proof.
  intros (Hkc & Hn). unfold pressed. rewrite length_take_le; lia.
Qed.

Lemma press_all_wf codes s : tracker_wf s -> tracker_wf (press_all codes s).
Proof.
  revert s. induction codes as [|c codes IH]; intros s Hwf; simpl; auto.
  apply IH, add_key_wf, Hwf.
Qed.

(** Keys are never dropped by [add_key]. *)
Lemma press_all_keeps codes s x :
  tracker_wf s -> x ∈ pressed s -> x ∈ pressed (press_all codes s).
Proof.
  revert s. induction codes as [|c codes IH]; intros s Hwf Hx; simpl; auto.
  apply IH; [apply add_key_wf, Hwf|].
  destruct (add_key_cases c s Hwf) as [(-> & _)|(_ & _ & -> & _)]; auto.
  apply elem_of_app. left. exact Hx.
Qed.

Lemma press_all_num_mono codes s :
  tracker_wf s ->
  num_keys_pressed s <= num_keys_pressed (press_all codes s).
Proof.
  revert s. induction codes as [|c codes IH]; intros s Hwf; simpl; [lia|].
  specialize (IH (add_key c s) (add_key_wf c s Hwf)).
  destruct (add_key_cases c s Hwf) as [(E & _)|(_ & _ & _ & E)];
    rewrite E in *; lia.
Qed.

(** While fewer than six keys are held at the end, every code of the
    sequence is held. *)
Lemma press_all_below codes s x :
  tracker_wf s -> num_keys_pressed (press_all codes s) < 6 ->
  x ∈ codes -> x ∈ pressed (press_all codes s).
Proof.
  revert s. induction codes as [|c codes IH]; intros s Hwf Hlt Hx; simpl in *.
  - apply elem_of_nil in Hx. contradiction.
  - pose proof (add_key_wf c s Hwf) as Hwf'.
    apply elem_of_cons in Hx as [->|Hx]; [|apply IH; assumption].
    apply press_all_keeps; [assumption|].
    pose proof (press_all_num_mono codes (add_key c s) Hwf') as Hm.
    destruct (add_key_cases c s Hwf) as [(E & [H6|Hin])|(_ & _ & -> & _)].
    + rewrite E in Hm, Hlt. lia.
    + rewrite E. exact Hin.
    + apply elem_of_app. right. apply list_elem_of_singleton. reflexivity.
Qed.

Lemma press_all_fills codes s :
  tracker_wf s -> (6 < length (remove_dups codes))%nat ->
  num_keys_pressed (press_all codes s) = 6.
Proof.
  intros Hwf Hmany. pose proof (press_all_wf codes s Hwf) as Hwf'.
  destruct (Z.lt_ge_cases (num_keys_pressed (press_all codes s)) 6)
    as [Hlt|Hge]; [|destruct Hwf'; lia].
  exfalso.
  assert (Hsub : remove_dups codes ⊆+ pressed (press_all codes s)).
  { apply NoDup_submseteq; [apply NoDup_remove_dups|].
    intros x Hx. rewrite elem_of_remove_dups in Hx.
    exact (press_all_below codes s x Hwf Hlt Hx). }
  apply submseteq_length in Hsub.
  pose proof (length_pressed _ Hwf'). lia.
Qed.

Lemma remove_dups_distinct (l : list Z) : NoDup l -> remove_dups l = l.
Proof.
  induction 1 as [|x l Hx _ IH]; simpl; [reflexivity|].
  destruct (decide_rel elem_of x l); [contradiction | f_equal; exact IH].
Qed.

(** Distinct codes, none of them held before: the first ones fill the
    free slots in order and the rest are dropped. *)
Lemma press_all_distinct codes s :
  tracker_wf s -> NoDup (pressed s ++ codes) ->
  pressed (press_all codes s) = take 6 (pressed s ++ codes).
Proof.
  revert s. induction codes as [|c codes IH]; intros s Hwf Hnd; simpl.
  - rewrite app_nil_r, take_ge; [reflexivity|].
    pose proof (length_pressed s Hwf). destruct Hwf. lia.
  - pose proof (length_pressed s Hwf) as Hlen.
    apply NoDup_app in Hnd as (Hnd1 & Hdisj & Hnd2).
    apply NoDup_cons in Hnd2 as (Hc & Hnd2).
    destruct (add_key_cases c s Hwf) as [(E & [H6|Hin])|(_ & _ & E & _)].
    + rewrite E, IH; auto.
      * rewrite !take_app_le by lia. reflexivity.
      * apply NoDup_app. repeat split; auto.
        intros x Hx Hx'. apply (Hdisj x Hx). right. exact Hx'.
    + exfalso. apply (Hdisj c Hin). left.
    + rewrite IH; [|apply add_key_wf, Hwf|].
      * rewrite E, <- app_assoc. reflexivity.
      * rewrite E, <- app_assoc. simpl.
        apply NoDup_app. repeat split; auto.
        apply NoDup_cons. auto.
Qed.

(** C5.  A sequence of presses holding more than six distinct codes,
    with no release in between, ends with exactly six keys held,
    whatever valid tracker state it starts from; a press with six keys
    held is dropped and leaves the state unchanged, as does a press of
    a code that is held; and from the initial state with distinct
    codes, the six keys held are the first six of the sequence. *)
Theorem C5_seventh_press_is_dropped :
  (forall codes s,
      tracker_wf s -> (6 < length (remove_dups codes))%nat ->
      num_keys_pressed (press_all codes s) = 6)
  /\ (forall c s, 6 <= num_keys_pressed s -> add_key c s = s)
  /\ (forall c s, tracker_wf s -> c ∈ pressed s -> add_key c s = s)
  /\ (forall codes,
         NoDup codes -> (6 < length codes)%nat ->
         pressed (press_all codes kbd_init) = take 6 codes
         /\ forall more,
              press_all (codes ++ more) kbd_init = press_all codes kbd_init).
Proof.
  split; [exact press_all_fills|]. split; [exact add_key_full|].
  split; [exact add_key_present|].
  intros codes Hnd Hlen.
  assert (Hwf : tracker_wf kbd_init) by (split; simpl; [reflexivity | lia]).
  split; [apply (press_all_distinct codes kbd_init Hwf); exact Hnd|].
  intros more. unfold press_all at 1. rewrite foldl_app.
  fold (press_all codes kbd_init).
  assert (H6 : num_keys_pressed (press_all codes kbd_init) = 6).
  { apply press_all_fills; [exact Hwf|].
    rewrite remove_dups_distinct by exact Hnd. exact Hlen. }
  induction more as [|c more IH]; simpl; [reflexivity|].
  rewrite add_key_full by lia. exact IH.
Qed.

Lemma C5_witness :
  num_keys_pressed (press_all [4; 5; 6; 7; 8; 9; 10; 11] kbd_init) = 6
  /\ pressed (press_all [4; 5; 6; 7; 8; 9; 10] kbd_init)
     = [4; 5; 6; 7; 8; 9].
Proof.
  split.
  - apply (proj1 C5_seventh_press_is_dropped).
    + split; simpl; [reflexivity | lia].
    + vm_compute. lia.
  - destruct (proj2 (proj2 (proj2 C5_seventh_press_is_dropped))
                [4; 5; 6; 7; 8; 9; 10]) as [H _]; [| |exact H].
    + apply (bool_decide_unpack _). vm_compute. exact I.
    + simpl. lia.
Defined.

(** *** Press, then release *)

(** C6.  In a tracker state with its six slots, at most six keys held
    and zero in the slots past them, for a code that is not held and
    with fewer than six keys held, [add_key] followed by [remove_key]
    of that code gives back the state it started from: the same keys
    in the same slots, the same count, the slot used in between zero
    again. *)
Theorem C6_press_release_round_trip :
  forall c s,
    tracker_wf s -> trailing_zero s -> num_keys_pressed s < 6 ->
    c ∉ pressed s ->
    remove_key c (add_key c s) = s.
Proof. exact add_remove_key. Qed.

Lemma C6_witness : remove_key 0x06 (add_key 0x06 two_keys) = two_keys.
Proof.
  apply C6_press_release_round_trip.
  - split; [reflexivity | vm_compute; split; discriminate].
  - intros i Hi. change (num_keys_pressed two_keys) with 2 in Hi.
    assert (H : i = 2 \/ i = 3 \/ i = 4 \/ i = 5) by lia.
    destruct H as [-> | [-> | [-> | ->]]]; reflexivity.
  - reflexivity.
  - vm_compute. intros H.
    repeat (apply elem_of_cons in H as [H|H]; [discriminate H|]).
    apply elem_of_nil in H. exact H.
Defined.

(** Releasing a key in the middle moves the later keys down and clears
    the last used slot. *)
Example remove_key_middle :
  key_codes (remove_key 0x05 (press_all [0x04; 0x05; 0x06; 0x07] kbd_init))
    = [0x04; 0x06; 0x07; 0; 0; 0]
  /\ num_keys_pressed
       (remove_key 0x05 (press_all [0x04; 0x05; 0x06; 0x07] kbd_init)) = 3.
Proof. split; reflexivity. Qed.

(** *** Output reports from the device *)

(** C7.  [handle_output] decodes LED flags, the second payload byte,
    exactly when the report type is [UHID_OUTPUT_REPORT], the payload
    length is 2 and the first payload byte is 2; otherwise it yields
    nothing. *)
Theorem C7_handle_output_decodes_led_report :
  forall o,
    let led :=
      rtype o = UHID_OUTPUT_REPORT /\ out_size o = 2
      /\ rd (out_data o) 0 = 2 in
    (forall flags,
        handle_output o = Some flags <-> led /\ flags = rd (out_data o) 1)
    /\ (handle_output o = None <-> ~ led).
Proof.
  intros o led. subst led. unfold handle_output.
  destruct (Z.eqb_spec (rtype o) UHID_OUTPUT_REPORT) as [Ht|Ht]; simpl.
  2:{ split; [intros flags|]; split; try discriminate; tauto. }
  destruct (Z.eqb_spec (out_size o) 2) as [Hs|Hs]; simpl.
  2:{ split; [intros flags|]; split; try discriminate; tauto. }
  destruct (Z.eqb_spec (rd (out_data o) 0) 2) as [Hd|Hd]; simpl.
  2:{ split; [intros flags|]; split; try discriminate; tauto. }
  split; [intros flags|]; split.
  - intros [= <-]. auto.
  - intros (_ & ->). reflexivity.
  - discriminate.
  - intros H. exfalso. apply H. auto.
Qed.

(** *** The dispatch loop *)

Lemma count_destroy_app out1 out2 :
  count_destroy (out1 ++ out2)
    = (count_destroy out1 + count_destroy out2)%nat.
Proof.
  unfold count_destroy. rewrite List.filter_app, length_app. reflexivity.
Qed.

Lemma tap_trace_no_destroy out : tap_trace out -> count_destroy out = 0%nat.
Proof. induction 1; auto. Qed.

Lemma tap_trace_no_create out e :
  tap_trace out -> e ∈ out -> is_create e = false.
Proof.
  induction 1; intros He.
  - apply elem_of_nil in He. contradiction.
  - apply elem_of_cons in He as [->|He]; [reflexivity|].
    apply elem_of_cons in He as [->|He]; [reflexivity | auto].
Qed.

(** One call of [keyboard] from the dispatcher appends a trace of taps
    and leaves no key held. *)
Lemma run_keyboard_trace w p :
  tracker_empty (kbd p) ->
  exists taps,
    written (run_keyboard w p).2 = written p ++ taps /\ tap_trace taps
    /\ tracker_empty (kbd (run_keyboard w p).2).
Proof.
  intros He. unfold run_keyboard.
  destruct (has_flag (revents0 w) POLLIN).
  2:{ exists []. rewrite app_nil_r. repeat split; [constructor | apply He..]. }
  unfold keyboard. destruct (stdin_rd w) as [|errno|buf]; simpl.
  1-2: exists []; rewrite app_nil_r; repeat split;
       [constructor | apply He..].
  destruct (keyboard_loop_tap buf (kbd p) He) as [He1 Ht1].
  destruct (keyboard_loop buf (kbd p)) as [s1 out1]; simpl in *.
  exists out1. auto.
Qed.

Lemma run_event_written w p :
  written (run_event w p).2 = written p /\ kbd (run_event w p).2 = kbd p.
Proof.
  unfold run_event. destruct (has_flag (revents1 w) POLLIN); [|auto].
  destruct (event (uhid_rd w)); auto.
Qed.

Lemma main_turn_trace w p :
  tracker_empty (kbd p) ->
  exists taps,
    written (main_turn w p).2 = written p ++ taps /\ tap_trace taps
    /\ tracker_empty (kbd (main_turn w p).2).
Proof.
  intros He. unfold main_turn.
  assert (Hstay : exists taps,
             written p = written p ++ taps /\ tap_trace taps
             /\ tracker_empty (kbd p)).
  { exists []. rewrite app_nil_r. repeat split; [constructor | apply He..]. }
  destruct (poll_ret w <? 0); [exact Hstay|].
  destruct (has_flag (revents0 w) POLLHUP); [exact Hstay|].
  destruct (has_flag (revents1 w) POLLHUP); [exact Hstay|].
  destruct (run_keyboard_trace w p He) as (taps & Hw & Ht & He1).
  destruct (run_keyboard w p) as [brk p1]; simpl in *.
  destruct brk; [exists taps; auto|].
  destruct (run_event_written w p1) as [Hw2 Hk2].
  exists taps. rewrite Hw2, Hk2. auto.
Qed.

Lemma main_loop_trace ws p :
  tracker_empty (kbd p) ->
  exists taps,
    written (main_loop ws p).2 = written p ++ taps /\ tap_trace taps
    /\ tracker_empty (kbd (main_loop ws p).2).
Proof.
  revert p. induction ws as [|w ws IH]; intros p He; simpl.
  - exists []. rewrite app_nil_r. repeat split; [constructor | apply He..].
  - destruct (main_turn_trace w p He) as (taps1 & Hw1 & Ht1 & He1).
    destruct (main_turn w p) as [brk p1]; simpl in *.
    destruct brk; [exists taps1; auto|].
    destruct (IH p1 He1) as (taps2 & Hw2 & Ht2 & He2).
    exists (taps1 ++ taps2). rewrite Hw2, Hw1, app_assoc.
    repeat split; [apply tap_trace_app; assumption | apply He2..].
Qed.

(** The wakeups after the one that ends the loop are not looked at. *)
Lemma main_loop_app pre ws p :
  main_loop (pre ++ ws) p =
    if (main_loop pre p).1 then main_loop pre p
    else main_loop ws (main_loop pre p).2.
Proof.
  revert p. induction pre as [|w pre IH]; intros p; simpl; [reflexivity|].
  destruct (main_turn w p) as [brk p1]. destruct brk; [reflexivity|].
  apply IH.
Qed.

(** A turn that reads 0 bytes from the device ends the loop. *)
Lemma main_turn_device_hup w p :
  reads_device w p = true -> uhid_rd w = DevHup ->
  main_turn w p = (true, (run_keyboard w p).2).
Proof.
  unfold reads_device. rewrite !andb_true_iff, !negb_true_iff.
  intros ((((Hp & H0) & H1) & Hk) & Hin) Hhup.
  unfold main_turn. rewrite Hp, H0, H1.
  destruct (run_keyboard w p) as [brk p1]; simpl in *. subst brk.
  unfold run_event. rewrite Hin, Hhup. simpl. rewrite app_nil_r.
  destruct p1; reflexivity.
Qed.

(** C8.  When the device opened and was created, the loop is still
    running after the wakeups [pre], and the next turn gets to the
    [read] on the device which returns 0 bytes: [event] returns
    [-EFAULT], which only serves to leave the loop; [main] writes one
    Destroy event and returns [EXIT_SUCCESS], whatever wakeups would
    follow; and that Destroy is the only one among the events
    written. *)
Theorem C8_device_hup_ends_loop_with_one_destroy :
  forall create_wr pre w rest p,
    uhid_write create_wr = 0 ->
    main_loop pre process_created = (false, p) ->
    reads_device w p = true ->
    uhid_rd w = DevHup ->
    let q := (run_keyboard w p).2 in
    event (uhid_rd w) = (- EFAULT, None)
    /\ main_turn w p = (true, q)
    /\ main (Opened create_wr) (pre ++ w :: rest)
       = (Some EXIT_SUCCESS,
          {| kbd := kbd q; written := written q ++ [EvDestroy];
             leds := leds q |})
    /\ count_destroy (written q ++ [EvDestroy]) = 1%nat.
Proof.
  intros create_wr pre w rest p Hcreate Hpre Hreads Hhup q.
  pose proof (main_turn_device_hup w p Hreads Hhup) as Hturn. fold q in Hturn.
  split; [rewrite Hhup; reflexivity|]. split; [exact Hturn|]. split.
  - unfold main, create. rewrite Hcreate. simpl. fold process_created.
    rewrite main_loop_app, Hpre. simpl. rewrite Hturn. reflexivity.
  - destruct (main_loop_trace pre process_created kbd_init_empty)
      as (taps1 & Hw1 & Ht1 & He1).
    rewrite Hpre in Hw1, He1. simpl in He1.
    change (written p = [create_event] ++ taps1) in Hw1.
    destruct (run_keyboard_trace w p He1) as (taps2 & Hw2 & Ht2 & _).
    fold q in Hw2. rewrite Hw2, Hw1, !count_destroy_app.
    rewrite (tap_trace_no_destroy taps1), (tap_trace_no_destroy taps2)
      by assumption.
    reflexivity.
Qed.

Lemma C8_witness :
  main (Opened WrFull)
       [stdin_wakeup [ch "q"]; uhid_wakeup DevHup; stdin_wakeup [ch "x"]]
  = (Some EXIT_SUCCESS,
     {| kbd := kbd_init;
        written := [create_event; report1 0 0x14; report0; EvDestroy];
        leds := [] |}).
Proof.
  apply (C8_device_hup_ends_loop_with_one_destroy
           WrFull [stdin_wakeup [ch "q"]] (uhid_wakeup DevHup)
           [stdin_wakeup [ch "x"]]
           {| kbd := kbd_init;
              written := [create_event; report1 0 0x14; report0];
              leds := [] |});
    reflexivity.
Defined.

(** *** The Create event *)

Lemma main_written st ws :
  written (main st ws).2 = []
  \/ exists rest,
       written (main st ws).2 = create_event :: rest
       /\ forall e, e ∈ rest -> is_create e = false.
Proof.
  destruct st as [| |create_wr]; simpl; auto. right.
  destruct (negb (uhid_write create_wr =? 0)); simpl.
  { exists []. split; [reflexivity|]. intros e He.
    apply elem_of_nil in He. contradiction. }
  fold process_created.
  destruct (main_loop_trace ws process_created kbd_init_empty)
    as (taps & Hw & Ht & _).
  destruct (main_loop ws process_created) as [stopped p1]; simpl in *.
  destruct stopped; simpl; rewrite Hw.
  - exists (taps ++ [EvDestroy]). split; [reflexivity|]. intros e He.
    apply elem_of_app in He as [He|He];
      [exact (tap_trace_no_create taps e Ht He)|].
    apply list_elem_of_singleton in He. subst e. reflexivity.
  - exists taps. split; [reflexivity|].
    intros e He. exact (tap_trace_no_create taps e Ht He).
Qed.

(** C9, amended.  The Create event carries the name, the descriptor
    bytes 05 01 09 06 A1 01 ... 81 00 C0, which are 45 bytes with
    [rd_size] 45, bus USB, vendor 0x15D9, product 0x0A37, version 0
    and country 0.  Whenever [main] gets to open the device, this
    event is the first one written, and no other Create event is
    written, so every Create event of a run carries these bytes.  The
    descriptor is the constant [rdesc]; it is no part of the state
    the functions pass on. *)
Theorem C9_create_event_and_descriptor :
  create_event =
    EvCreate {|
      name := "test-uhid-device";
      rd_data :=
        [0x05; 0x01; 0x09; 0x06; 0xA1; 0x01; 0x05; 0x07; 0x19; 0xE0;
         0x29; 0xE7; 0x15; 0x00; 0x25; 0x01; 0x75; 0x01; 0x95; 0x08;
         0x81; 0x02; 0x95; 0x01; 0x75; 0x08; 0x81; 0x01; 0x95; 0x06;
         0x75; 0x08; 0x15; 0x00; 0x25; 0x65; 0x05; 0x07; 0x19; 0x00;
         0x29; 0x65; 0x81; 0x00; 0xC0];
      rd_size := 45;
      bus := BUS_USB;
      vendor := 0x15D9;
      product := 0x0A37;
      version := 0;
      country := 0;
    |}
  /\ length rdesc = 45%nat
  /\ (forall create_wr ws,
         exists rest,
           written (main (Opened create_wr) ws).2 = create_event :: rest
           /\ forall e, e ∈ rest -> is_create e = false)
  /\ (forall st ws r,
         EvCreate r ∈ written (main st ws).2 -> rd_data r = rdesc).
Proof.
  split; [reflexivity|]. split; [reflexivity|]. split.
  - intros create_wr ws.
    destruct (main_written (Opened create_wr) ws) as [H|H]; [|exact H].
    exfalso. revert H. simpl.
    destruct (negb (uhid_write create_wr =? 0)); [discriminate|].
    destruct (main_loop_trace ws
                {| kbd := kbd_init; written := [create_event]; leds := [] |}
                kbd_init_empty) as (taps & Hw & _).
    destruct (main_loop ws _) as [stopped p1]; simpl in *.
    destruct stopped; simpl; rewrite Hw; discriminate.
  - intros st ws r Hin.
    destruct (main_written st ws) as [H|(rest & H & Hrest)];
      rewrite H in Hin.
    + apply elem_of_nil in Hin. contradiction.
    + apply elem_of_cons in Hin as [Heq|Hin].
      * injection Heq as ->. reflexivity.
      * apply Hrest in Hin. discriminate.
Qed.

Lemma C9_witness :
  EvCreate create_req
    ∈ written (main (Opened WrFull) [uhid_wakeup DevHup]).2
  /\ rd_data create_req = rdesc.
Proof.
  assert (H : EvCreate create_req
                ∈ written (main (Opened WrFull) [uhid_wakeup DevHup]).2)
    by apply list_elem_of_here.
  split; [exact H|].
  exact (proj2 (proj2 (proj2 C9_create_event_and_descriptor))
           (Opened WrFull) [uhid_wakeup DevHup] create_req H).
Defined.

(** C9 as stated fails: the descriptor the Create event carries is 45
    bytes long, not 43. *)
Lemma C9_counterexample :
  match create_event with
  | EvCreate r => rd_size r = 45 /\ length (rd_data r) <> 43%nat
  | _ => False
  end.
Proof. split; [reflexivity | discriminate]. Qed.

(** * Further properties of the code *)

(** ** [remove_key] in general *)

Lemma shift_step_length (kc : list Z) idx :
  length (foldl (fun kc j => <[Z.to_nat j := rd kc (j + 1)]> kc) kc idx)
  = length kc.
Proof.
  revert kc. induction idx as [|j idx IH]; intros kc; simpl; [reflexivity|].
  rewrite IH, length_insert. reflexivity.
Qed.

(** After [k] turns of the inner loop from index [i], the slots [i] to
    [i + k - 1] hold what their right neighbours held; the others are
    untouched. *)
Lemma shift_fold_lookup (kc : list Z) (i k j : nat) :
  (i + k < length kc)%nat ->
  foldl (fun kc j => <[Z.to_nat j := rd kc (j + 1)]> kc) kc
        (seqZ (Z.of_nat i) (Z.of_nat k)) !! j
  = if decide (i <= j < i + k)%nat then kc !! S j else kc !! j.
Proof.
  revert j. induction k as [|k IH]; intros j Hlen.
  - rewrite seqZ_nil by lia. simpl. case_decide; [lia | reflexivity].
  - replace (Z.of_nat (S k)) with (Z.of_nat k + 1) by lia.
    rewrite seqZ_app, foldl_app by lia. simpl.
    set (kc' := foldl _ kc (seqZ (Z.of_nat i) (Z.of_nat k))).
    assert (Hlen' : length kc' = length kc) by apply shift_step_length.
    assert (Hrd : kc' !! Z.to_nat (Z.of_nat i + Z.of_nat k + 1)
                  = kc !! S (i + k)).
    { replace (Z.to_nat (Z.of_nat i + Z.of_nat k + 1)) with (S (i + k))
        by lia.
      unfold kc'. rewrite IH by lia. case_decide; [lia | reflexivity]. }
    destruct (lookup_lt_is_Some_2 kc (S (i + k))) as [x Hx]; [lia|].
    change (Z.of_nat 0 + (Z.of_nat i + Z.of_nat k))
      with (Z.of_nat i + Z.of_nat k).
    unfold rd at 1. rewrite Hrd, Hx. simpl.
    replace (Z.to_nat (Z.of_nat i + Z.of_nat k)) with (i + k)%nat by lia.
    destruct (decide (j = (i + k)%nat)) as [->|Hne].
    + rewrite list_lookup_insert_eq by lia.
      case_decide; [congruence | lia].
    + rewrite list_lookup_insert_ne by lia. unfold kc'.
      rewrite IH by lia. repeat case_decide; auto; lia.
Qed.

(** The array after [remove_key] found the code in slot [i]. *)
Lemma remove_key_at c s (i : nat) :
  tracker_wf s ->
  pressed s !! i = Some c ->
  (forall j, (j < i)%nat -> pressed s !! j <> Some c) ->
  remove_key c s =
    set_keys (delete i (pressed s)
                ++ 0 :: drop (Z.to_nat (num_keys_pressed s)) (key_codes s))
             (num_keys_pressed s - 1) s.
Proof.
  intros (Hkc & Hn) Hi Hfirst. unfold pressed in *.
  set (n := Z.to_nat (num_keys_pressed s)) in *.
  apply lookup_take_Some in Hi as [Hi Hin].
  unfold remove_key.
  replace (seqZ 0 (num_keys_pressed s))
    with (seqZ 0 (Z.of_nat i)
            ++ seqZ (Z.of_nat i) (num_keys_pressed s - Z.of_nat i)).
  2:{ rewrite <- (seqZ_app 0) by lia. f_equal. lia. }
  rewrite remove_key_from_skip.
  2:{ intros j Hj Heq. apply elem_of_seqZ in Hj.
      apply (Hfirst (Z.to_nat j)); [lia|].
      rewrite lookup_take_lt by lia.
      destruct (lookup_lt_is_Some_2 (key_codes s) (Z.to_nat j)) as [y Hy];
        [lia|].
      rewrite Hy. f_equal. rewrite <- Heq. symmetry.
      apply rd_lookup; [lia | exact Hy]. }
  rewrite seqZ_cons by lia. simpl.
  rewrite (rd_lookup _ _ c) by (rewrite ?Nat2Z.id; auto; lia).
  rewrite Z.eqb_refl. f_equal.
  unfold shift_keys_left.
  replace (num_keys_pressed s - 1 - Z.of_nat i)
    with (Z.of_nat (n - 1 - i)) by lia.
  replace (Z.to_nat (num_keys_pressed s - 1)) with (n - 1)%nat by lia.
  apply list_eq. intros j.
  assert (Hdel : length (delete i (take n (key_codes s))) = (n - 1)%nat).
  { rewrite length_delete, length_take_le by
      (rewrite ?lookup_take_lt by lia; eauto; lia). reflexivity. }
  destruct (lt_eq_lt_dec j (n - 1)) as [[Hlt | ->] | Hgt].
  - rewrite list_lookup_insert_ne by lia.
    rewrite shift_fold_lookup by lia.
    rewrite lookup_app_l by lia. rewrite list_lookup_delete.
    repeat case_decide; try lia; rewrite lookup_take_lt by lia; reflexivity.
  - rewrite list_lookup_insert_eq
      by (rewrite shift_step_length; lia).
    rewrite lookup_app_r by lia. rewrite Hdel, Nat.sub_diag. reflexivity.
  - rewrite list_lookup_insert_ne by lia.
    rewrite shift_fold_lookup by lia.
    rewrite lookup_app_r by lia. rewrite Hdel.
    replace (j - (n - 1))%nat with (S (j - n)) by lia. simpl.
    rewrite lookup_drop. case_decide; [lia|]. f_equal. lia.
Qed.

Lemma first_index (l : list Z) c :
  c ∈ l ->
  exists i, l !! i = Some c /\ forall j, (j < i)%nat -> l !! j <> Some c.
Proof.
  induction l as [|x l IH]; intros Hin.
  - apply elem_of_nil in Hin. contradiction.
  - destruct (decide (x = c)) as [->|Hne].
    + exists 0%nat. split; [reflexivity | intros j Hj; lia].
    + apply elem_of_cons in Hin as [Heq|Hin]; [congruence|].
      destruct (IH Hin) as (i & Hi & Hfirst). exists (S i).
      split; [exact Hi|]. intros [|j] Hj; simpl; [congruence|].
      apply Hfirst. lia.
Qed.

(** X1.  [remove_key] of a code held in slot [i], its first
    occurrence: the keys after it move down one slot in order, the
    count goes down by one, the slot freed at the end is set to zero
    and the slots past the old count are untouched. *)
Theorem X1_remove_key_held :
  forall c s (i : nat),
    tracker_wf s ->
    pressed s !! i = Some c ->
    (forall j, (j < i)%nat -> pressed s !! j <> Some c) ->
    key_codes (remove_key c s)
      = delete i (pressed s)
          ++ 0 :: drop (Z.to_nat (num_keys_pressed s)) (key_codes s)
    /\ num_keys_pressed (remove_key c s) = num_keys_pressed s - 1
    /\ pressed (remove_key c s) = delete i (pressed s)
    /\ length (key_codes (remove_key c s)) = 6%nat.
Proof.
  intros c s i Hwf Hi Hfirst.
  rewrite (remove_key_at c s i Hwf Hi Hfirst).
  pose proof (length_pressed s Hwf) as Hlen. destruct Hwf as (Hkc & Hn).
  assert (Hdel : length (delete i (pressed s))
                 = Z.to_nat (num_keys_pressed s - 1)).
  { rewrite length_delete by eauto. lia. }
  unfold pressed at 3. simpl. repeat split.
  - apply take_app_length'. symmetry. exact Hdel.
  - rewrite length_app. simpl. rewrite length_drop, Hdel.
    apply lookup_lt_Some in Hi. lia.
Qed.

Lemma X1_witness :
  key_codes (remove_key 0x05 (press_all [0x04; 0x05; 0x06] kbd_init))
  = [0x04; 0x06; 0; 0; 0; 0].
Proof.
  apply (X1_remove_key_held 0x05 (press_all [0x04; 0x05; 0x06] kbd_init) 1).
  - split; [reflexivity | vm_compute; split; discriminate].
  - reflexivity.
  - intros [|j] Hj; [discriminate | lia].
Defined.

(** X2.  [remove_key] of a code that is not held changes nothing. *)
Theorem X2_remove_key_not_held :
  forall c s, tracker_wf s -> c ∉ pressed s -> remove_key c s = s.
Proof.
  intros c s (Hkc & Hn) Hin. unfold remove_key.
  rewrite <- (app_nil_r (seqZ _ _)), remove_key_from_skip; [reflexivity|].
  intros i Hi Heq. apply elem_of_seqZ in Hi. apply Hin.
  apply scan_pressed; [lia..|]. apply existsb_exists. exists i.
  split; [apply list_elem_of_In, elem_of_seqZ; lia | apply Z.eqb_eq, Heq].
Qed.

Lemma X2_witness : remove_key 0x06 two_keys = two_keys.
Proof.
  apply X2_remove_key_not_held.
  - split; [reflexivity | vm_compute; split; discriminate].
  - vm_compute. intros H.
    repeat (apply elem_of_cons in H as [H|H]; [discriminate H|]).
    apply elem_of_nil in H. exact H.
Defined.

(** The two ways [remove_key] ends. *)
Lemma remove_key_cases c s :
  tracker_wf s ->
  ((c ∉ pressed s) /\ remove_key c s = s)
  \/ exists i,
       pressed s !! i = Some c
       /\ remove_key c s =
            set_keys
              (delete i (pressed s)
                 ++ 0 :: drop (Z.to_nat (num_keys_pressed s)) (key_codes s))
              (num_keys_pressed s - 1) s.
Proof.
  intros Hwf. destruct (decide (c ∈ pressed s)) as [Hin|Hin].
  - right. destruct (first_index _ _ Hin) as (i & Hi & Hfirst).
    exists i. split; [exact Hi | apply remove_key_at; assumption].
  - left. split; [exact Hin | apply remove_key_absent; assumption].
Qed.

Lemma add_key_inv c s : tracker_inv s -> tracker_inv (add_key c s).
Proof.
  intros (Hwf & Hnd & Hz). split; [apply add_key_wf, Hwf|].
  destruct (add_key_cases c s Hwf) as [(-> & _)|(Hlt & Hin & Hp & Hn)];
    [auto|].
  split.
  - rewrite Hp. apply NoDup_app. repeat split; auto.
    + intros x Hx Hx'. apply list_elem_of_singleton in Hx'. congruence.
    + apply NoDup_singleton.
  - intros i Hi. rewrite Hn in Hi.
    rewrite add_key_new by assumption. simpl.
    destruct Hwf as (_ & Hr).
    rewrite rd_insert_ne by lia. apply Hz. lia.
Qed.

Lemma remove_key_inv c s :
  tracker_inv s ->
  tracker_inv (remove_key c s) /\ c ∉ pressed (remove_key c s).
Proof.
  intros (Hwf & Hnd & Hz).
  destruct (remove_key_cases c s Hwf) as [(Hin & ->)|(i & Hi & E)].
  { repeat split; auto; apply Hwf. }
  pose proof (length_pressed s Hwf) as Hlen.
  pose proof Hwf as (Hkc & Hn).
  pose proof (lookup_lt_Some _ _ _ Hi) as Hlt.
  assert (Hdel : length (delete i (pressed s))
                 = Z.to_nat (num_keys_pressed s - 1)).
  { rewrite length_delete by eauto. lia. }
  assert (Hp : pressed (remove_key c s) = delete i (pressed s)).
  { rewrite E. unfold pressed at 1. simpl.
    apply take_app_length'. symmetry. exact Hdel. }
  split; [split; [|split]|].
  - rewrite E. split; simpl; [|lia].
    rewrite length_app. simpl. rewrite length_drop, Hdel. lia.
  - rewrite Hp. exact (sublist_NoDup _ _ Hnd (sublist_delete _ i)).
  - intros j Hj. rewrite E in *. simpl in *. unfold rd.
    rewrite lookup_app_r by lia. rewrite Hdel.
    destruct (decide (j = num_keys_pressed s - 1)) as [->|Hne].
    + rewrite Nat.sub_diag. reflexivity.
    + replace (Z.to_nat j - Z.to_nat (num_keys_pressed s - 1))%nat
        with (S (Z.to_nat j - Z.to_nat (num_keys_pressed s))) by lia.
      simpl. rewrite lookup_drop.
      replace (Z.to_nat (num_keys_pressed s)
               + (Z.to_nat j - Z.to_nat (num_keys_pressed s)))%nat
        with (Z.to_nat j) by lia.
      apply (Hz j). lia.
  - rewrite Hp. intros Hin. apply list_elem_of_lookup in Hin as (j & Hj).
    rewrite list_lookup_delete in Hj. case_decide.
    + assert (j = i) by (eapply NoDup_lookup; eauto). lia.
    + assert (S j = i) by (eapply NoDup_lookup; eauto). lia.
Qed.

(** X3.  The tracker invariant (six slots, count between 0 and 6, no
    code held twice, zero past the count) is kept by [add_key] and by
    [remove_key]; after [remove_key] the code is not held; after
    [add_key] the code is held unless six other keys are. *)
Theorem X3_tracker_invariant :
  forall c s,
    tracker_inv s ->
    tracker_inv (add_key c s)
    /\ tracker_inv (remove_key c s)
    /\ (c ∉ pressed (remove_key c s))
    /\ ((c ∈ pressed (add_key c s))
        \/ (num_keys_pressed s = 6 /\ add_key c s = s)).
Proof.
  intros c s Hinv. split; [apply add_key_inv, Hinv|].
  destruct (remove_key_inv c s Hinv) as [H1 H2].
  split; [exact H1|]. split; [exact H2|].
  destruct Hinv as (Hwf & _).
  destruct (add_key_cases c s Hwf) as [(E & [H6|Hin])|(_ & _ & Hp & _)].
  - right. auto.
  - left. rewrite E. exact Hin.
  - left. rewrite Hp. apply elem_of_app. right.
    apply list_elem_of_singleton. reflexivity.
Qed.

Lemma two_keys_inv : tracker_inv two_keys.
Proof.
  split; [split; [reflexivity | vm_compute; split; discriminate]|].
  split.
  - apply (bool_decide_unpack _). vm_compute. exact I.
  - intros i Hi. change (num_keys_pressed two_keys) with 2 in Hi.
    assert (H : i = 2 \/ i = 3 \/ i = 4 \/ i = 5) by lia.
    destruct H as [-> | [-> | [-> | ->]]]; reflexivity.
Qed.

Lemma X3_witness :
  tracker_inv (add_key 0x06 two_keys)
  /\ tracker_inv (remove_key 0x04 two_keys)
  /\ (0x04 ∉ pressed (remove_key 0x04 two_keys)).
Proof.
  split.
  - apply (X3_tracker_invariant 0x06 two_keys two_keys_inv).
  - destruct (X3_tracker_invariant 0x04 two_keys two_keys_inv)
      as (_ & H1 & H2 & _).
    split; assumption.
Defined.

(** ** The report codec *)

(** X4.  For a tracker with its six slots and a count between 0 and 6,
    the report [send_event] builds has 8 bytes: the modifier byte, a
    zero byte, the codes held in order, and zeros for the free slots,
    whatever the array holds past the count. *)
Theorem X4_send_event_report :
  forall s,
    tracker_wf s ->
    send_event s =
      EvInput {|
        in_data := modifier_keys s :: 0 :: pressed s
                     ++ replicate (6 - length (pressed s)) 0;
        in_size := 8 |}
    /\ length (modifier_keys s :: 0 :: pressed s
                 ++ replicate (6 - length (pressed s)) 0) = 8%nat.
Proof.
  intros s Hwf. pose proof (length_pressed s Hwf) as Hlen.
  destruct Hwf as (Hkc & Hn). split.
  - unfold send_event.
    destruct (Z.ltb_spec 0 (num_keys_pressed s)) as [Hpos|Hzero].
    + destruct (Z.ltb_spec 6 (num_keys_pressed s)); [lia|].
      fold (pressed s).
      replace (length (pressed s)) with (Z.to_nat (num_keys_pressed s))
        by lia.
      reflexivity.
    + unfold pressed in *.
      replace (num_keys_pressed s) with 0 by lia. reflexivity.
  - simpl. rewrite length_app, length_replicate. lia.
Qed.

Lemma X4_witness :
  send_event two_keys =
    EvInput {| in_data := [0; 0; 0x04; 0x05; 0; 0; 0; 0]; in_size := 8 |}.
Proof.
  apply (X4_send_event_report two_keys).
  split; [reflexivity | vm_compute; split; discriminate].
Defined.

(** ** Properties of everything the translator writes *)

(** A property of event lists that holds of the reports of each byte
    holds of all the reports of a run of the dispatch loop. *)
Section trace_property.
Variable P : list uhid_event -> Prop.
Hypothesis P_nil : P [].
Hypothesis P_app : forall out1 out2, P out1 -> P out2 -> P (out1 ++ out2).
Hypothesis P_byte :
  forall c next s, tracker_empty s -> P (keyboard_byte c next s).2.

Lemma keyboard_loop_lift buf s :
  tracker_empty s -> P (keyboard_loop buf s).2.
Proof.
  revert s. induction buf as [|c rest IH]; intros s He; simpl; [exact P_nil|].
  pose proof (P_byte c (head rest) s He) as H1.
  destruct (keyboard_byte_tap c (head rest) s He) as [He1 _].
  destruct (keyboard_byte c (head rest) s) as [s1 out1]; simpl in *.
  specialize (IH s1 He1).
  destruct (keyboard_loop rest s1) as [s2 out2]; simpl in *.
  apply P_app; assumption.
Qed.

Lemma main_turn_lift w p :
  tracker_empty (kbd p) ->
  exists out, written (main_turn w p).2 = written p ++ out /\ P out.
Proof.
  intros He.
  assert (Hstay : exists out, written p = written p ++ out /\ P out).
  { exists []. rewrite app_nil_r. auto. }
  unfold main_turn.
  destruct (poll_ret w <? 0); [exact Hstay|].
  destruct (has_flag (revents0 w) POLLHUP); [exact Hstay|].
  destruct (has_flag (revents1 w) POLLHUP); [exact Hstay|].
  assert (Hk : exists out,
             written (run_keyboard w p).2 = written p ++ out /\ P out).
  { unfold run_keyboard.
    destruct (has_flag (revents0 w) POLLIN); [|exact Hstay].
    unfold keyboard. destruct (stdin_rd w) as [|errno|buf]; simpl.
    1-2: exists []; auto.
    pose proof (keyboard_loop_lift buf (kbd p) He) as Hl.
    destruct (keyboard_loop buf (kbd p)) as [s1 out1]; simpl in *.
    exists out1. auto. }
  destruct Hk as (out & Hw & Hout).
  destruct (run_keyboard w p) as [brk p1]; simpl in *.
  destruct brk; [exists out; auto|].
  destruct (run_event_written w p1) as [Hw2 _].
  exists out. rewrite Hw2. auto.
Qed.

Lemma main_loop_lift ws p :
  tracker_empty (kbd p) ->
  exists out, written (main_loop ws p).2 = written p ++ out /\ P out.
Proof.
  revert p. induction ws as [|w ws IH]; intros p He; simpl.
  - exists []. rewrite app_nil_r. auto.
  - destruct (main_turn_lift w p He) as (out1 & Hw1 & H1).
    destruct (main_turn_trace w p He) as (_ & _ & _ & He1).
    destruct (main_turn w p) as [brk p1]; simpl in *.
    destruct brk; [exists out1; auto|].
    destruct (IH p1 He1) as (out2 & Hw2 & H2).
    exists (out1 ++ out2). rewrite Hw2, Hw1, app_assoc. auto.
Qed.
End trace_property.

Lemma is_arrow_range k : is_arrow k = true -> 0x4f <= k <= 0x52.
Proof.
  unfold is_arrow. rewrite !orb_true_iff, !Z.eqb_eq. lia.
Qed.

Lemma keyboard_byte_ok c next s :
  tracker_empty s -> Forall report_ok (keyboard_byte c next s).2.
Proof.
  intros He. rewrite keyboard_byte_empty by assumption. simpl.
  assert (Hcode : forall k,
             (resolve c next s).1 = Code k -> 0 <= k <= 0x65).
  { intros k Hk.
    destruct (Z.lt_ge_cases 0 (escape_len s)) as [Hl|Hl].
    - destruct (resolve_in_escape c next s Hl) as [E|(k' & E & _ & Ha)];
        rewrite E in Hk; [discriminate|].
      injection Hk as ->. apply is_arrow_range in Ha. lia.
    - destruct (resolve_normal c next s Hl) as [E|E];
        rewrite E in Hk; [discriminate|].
      injection Hk as <-. pose proof (ascii_to_hid_range c). lia. }
  destruct (resolve c next s).1 as [|k]; simpl; [constructor|].
  destruct (k =? 0); [constructor|].
  specialize (Hcode k eq_refl).
  repeat constructor.
  - exists (if needs_shift c k then 2 else 0), k.
    destruct (needs_shift c k); auto.
  - exists 0, 0. repeat split; auto; lia.
Qed.

(** X5.  Every event [main] writes is the Create event, the Destroy
    event, or an input report the descriptor allows: its modifier
    byte is 0 or 0x02 (left shift), its reserved byte is 0, at most
    its first key slot is used, and the usage code there is at most
    the logical maximum 0x65. *)
Theorem X5_every_report_fits_descriptor :
  forall st ws e,
    e ∈ written (main st ws).2 ->
    e = create_event \/ e = EvDestroy \/ report_ok e.
Proof.
  intros st ws e Hin. destruct st as [| |create_wr]; simpl in Hin.
  1-2: apply elem_of_nil in Hin; contradiction.
  destruct (negb (uhid_write create_wr =? 0)); simpl in Hin.
  { apply list_elem_of_singleton in Hin. auto. }
  fold process_created in Hin.
  destruct (main_loop_lift (Forall report_ok) (Forall_nil_2 _)
              (fun a b => Forall_app_2 _ a b) keyboard_byte_ok
              ws process_created kbd_init_empty) as (out & Hw & Hok).
  rewrite Forall_forall in Hok.
  destruct (main_loop ws process_created) as [stopped p1]; simpl in *.
  assert (Hp1 : e ∈ written p1 -> e = create_event \/ report_ok e).
  { rewrite Hw. intros H. apply elem_of_cons in H as [->|H]; auto. }
  destruct stopped; simpl in Hin.
  - apply elem_of_app in Hin as [Hin|Hin].
    + destruct (Hp1 Hin); auto.
    + apply list_elem_of_singleton in Hin. auto.
  - destruct (Hp1 Hin); auto.
Qed.

Lemma X5_witness :
  report_ok (report1 0x02 0x14).
Proof.
  destruct (X5_every_report_fits_descriptor
              (Opened WrFull) [stdin_wakeup [ch "Q"]] (report1 0x02 0x14))
    as [H|[H|H]]; [|discriminate H..|exact H].
  right. left.
Defined.

(** ** The state stays inside its arrays *)

Lemma add_key_escape c s :
  escape_buf (add_key c s) = escape_buf s
  /\ escape_len (add_key c s) = escape_len s
  /\ modifier_keys (add_key c s) = modifier_keys s.
Proof. unfold add_key. repeat case_match; auto. Qed.

Lemma remove_key_from_escape idx c s :
  escape_buf (remove_key_from idx c s) = escape_buf s
  /\ escape_len (remove_key_from idx c s) = escape_len s
  /\ modifier_keys (remove_key_from idx c s) = modifier_keys s.
Proof.
  induction idx as [|i idx IH]; simpl; [auto|].
  case_match; auto.
Qed.

Lemma tracker_inv_ext s s' :
  key_codes s' = key_codes s -> num_keys_pressed s' = num_keys_pressed s ->
  tracker_inv s -> tracker_inv s'.
Proof.
  unfold tracker_inv, tracker_wf, trailing_zero, pressed.
  intros -> ->. auto.
Qed.

Lemma escape_wf_ext s s' :
  escape_buf s' = escape_buf s -> escape_len s' = escape_len s ->
  escape_wf s -> escape_wf s'.
Proof. unfold escape_wf. intros -> ->. auto. Qed.

Lemma add_to_escape_buf_wf c s :
  escape_wf s -> escape_wf (add_to_escape_buf c s).
Proof.
  intros (Hsize & Hlen). unfold add_to_escape_buf, to_size_t.
  rewrite Z.mod_small by lia.
  destruct (Z.ltb_spec (escape_len s) (8 - 1)); split; simpl;
    rewrite ?length_insert; auto; lia.
Qed.

Lemma process_escape_sequence_wf s :
  escape_wf s -> escape_wf (process_escape_sequence s).2.
Proof.
  intros (Hsize & Hlen). unfold process_escape_sequence.
  repeat case_match; simpl; auto; split; simpl; auto; lia.
Qed.

Lemma resolve_escape_wf c next s :
  escape_wf s -> escape_wf (resolve c next s).2.
Proof.
  intros Hwf. unfold resolve.
  destruct (0 <? escape_len s).
  - pose proof (process_escape_sequence_wf _
                  (add_to_escape_buf_wf c s Hwf)) as H.
    destruct (process_escape_sequence (add_to_escape_buf c s)) as [h s2].
    destruct (negb (h =? 0)); exact H.
  - repeat case_match; simpl; auto using add_to_escape_buf_wf.
Qed.

Lemma press_release_inv c hid_code s :
  kbd_inv s -> kbd_inv (press_release c hid_code s).1.
Proof.
  intros (Hti & Hew). unfold press_release. simpl.
  set (s1 := if needs_shift c hid_code then _ else s).
  assert (H1 : kbd_inv s1).
  { unfold s1. destruct (needs_shift c hid_code); split; auto. }
  destruct H1 as (Hti1 & Hew1).
  assert (H3 : kbd_inv (remove_key hid_code (add_key hid_code s1))).
  { split.
    - apply remove_key_inv, add_key_inv, Hti1.
    - destruct (remove_key_from_escape
                  (seqZ 0 (num_keys_pressed (add_key hid_code s1)))
                  hid_code (add_key hid_code s1)) as (E1 & E2 & _).
      destruct (add_key_escape hid_code s1) as (E3 & E4 & _).
      eapply escape_wf_ext; [| |exact Hew1]; unfold remove_key; congruence. }
  destruct (needs_shift c hid_code); [|exact H3].
  destruct H3 as (Hti3 & Hew3). split; auto.
Qed.

Lemma keyboard_byte_inv c next s :
  kbd_inv s -> kbd_inv (keyboard_byte c next s).1.
Proof.
  intros (Hti & Hew). unfold keyboard_byte.
  pose proof (resolve_escape_wf c next s Hew) as Hew1.
  destruct (resolve_tracker c next s) as (Ek & En & _).
  assert (H1 : kbd_inv (resolve c next s).2).
  { split; [|exact Hew1]. eapply tracker_inv_ext; eauto. }
  destruct (resolve c next s) as [[|h] s1]; simpl in *; [exact H1|].
  destruct (h =? 0); [exact H1|]. apply press_release_inv, H1.
Qed.

Lemma kbd_init_inv : kbd_inv kbd_init.
Proof.
  split; [|split; [reflexivity | simpl; lia]].
  split; [split; [reflexivity | simpl; lia]|].
  split; [constructor|]. intros i _. apply rd_replicate_0.
Qed.

(** X6.  From any state that is inside its arrays (six key slots with
    a count between 0 and 6, no code held twice, zeros past the
    count; eight buffer bytes with a length between 0 and 7), every
    byte and every chunk leave the state inside its arrays: no index
    the translator uses runs past [key_codes] or [escape_buf]. *)
Theorem X6_keyboard_keeps_state_in_bounds :
  (forall c next s, kbd_inv s -> kbd_inv (keyboard_byte c next s).1)
  /\ (forall buf s, kbd_inv s -> kbd_inv (keyboard_loop buf s).1)
  /\ (forall chunks, kbd_inv (keyboard_chunks chunks kbd_init).1).
Proof.
  assert (Hloop : forall buf s,
             kbd_inv s -> kbd_inv (keyboard_loop buf s).1).
  { induction buf as [|c rest IH]; intros s Hs; simpl; [exact Hs|].
    pose proof (keyboard_byte_inv c (head rest) s Hs) as H1.
    destruct (keyboard_byte c (head rest) s) as [s1 out1]; simpl in *.
    specialize (IH s1 H1).
    destruct (keyboard_loop rest s1) as [s2 out2]; exact IH. }
  split; [exact keyboard_byte_inv|]. split; [exact Hloop|].
  intros chunks. generalize kbd_init kbd_init_inv.
  induction chunks as [|buf rest IH]; intros s Hs; simpl; [exact Hs|].
  pose proof (Hloop buf s Hs) as H1.
  destruct (keyboard_loop buf s) as [s1 out1]; simpl in *.
  specialize (IH s1 H1).
  destruct (keyboard_chunks rest s1) as [s2 out2]; exact IH.
Qed.

Lemma X6_witness :
  kbd_inv (keyboard_loop [27; ch "["; ch "Z"; ch "a"] kbd_init).1.
Proof.
  apply (proj1 (proj2 X6_keyboard_keeps_state_in_bounds)), kbd_init_inv.
Defined.

(** ** An escape sequence that does not resolve *)

(** A byte that meets a stuck buffer with room left is stored, nothing
    is written, and the buffer is still stuck. *)
Lemma stuck_byte_room c next s :
  stuck s -> escape_len s < 7 ->
  keyboard_byte c next s =
    (set_escape (<[Z.to_nat (escape_len s) := c]> (escape_buf s))
                (escape_len s + 1) s, [])
  /\ stuck (set_escape (<[Z.to_nat (escape_len s) := c]> (escape_buf s))
                       (escape_len s + 1) s).
Proof.
  intros (Hsize & Hlen & Harrow) Hroom.
  assert (Hrd2 : rd (<[Z.to_nat (escape_len s) := c]> (escape_buf s)) 2
                 = rd (escape_buf s) 2) by (apply rd_insert_ne; lia).
  split.
  - unfold keyboard_byte, resolve.
    destruct (Z.ltb_spec 0 (escape_len s)); [|lia].
    rewrite add_to_escape_buf_room by lia.
    unfold process_escape_sequence. simpl.
    rewrite Hrd2, Harrow. simpl.
    destruct (_ && _); reflexivity.
  - split; [|split]; simpl.
    + rewrite length_insert. exact Hsize.
    + lia.
    + rewrite Hrd2. exact Harrow.
Qed.

(** A byte that meets a full buffer empties it and is dropped. *)
Lemma stuck_byte_full c next s :
  escape_len s = 7 ->
  keyboard_byte c next s = (set_escape (escape_buf s) 0 s, []).
Proof.
  intros Hlen. unfold keyboard_byte, resolve, add_to_escape_buf.
  rewrite Hlen. reflexivity.
Qed.

(** X7.  Once the buffer holds a sequence whose third byte is not 'A',
    'B', 'C' or 'D', the translator stores the following bytes
    without writing anything until the buffer is full, and the byte
    after that empties the buffer and is dropped too: with [n] bytes
    in the buffer the next [8 - n] bytes, whatever they are, produce
    no report and leave the keys and modifiers as they were; after
    them the buffer is empty. *)
Theorem X7_unresolved_sequence_swallows_input :
  forall bytes s,
    stuck s ->
    Z.of_nat (length bytes) = 8 - escape_len s ->
    (keyboard_loop bytes s).2 = []
    /\ escape_len (keyboard_loop bytes s).1 = 0
    /\ key_codes (keyboard_loop bytes s).1 = key_codes s
    /\ num_keys_pressed (keyboard_loop bytes s).1 = num_keys_pressed s
    /\ modifier_keys (keyboard_loop bytes s).1 = modifier_keys s.
Proof.
  intros bytes. induction bytes as [|c rest IH]; intros s Hs Hlen.
  - destruct Hs as (_ & ? & _). simpl in Hlen. lia.
  - rewrite length_cons, Nat2Z.inj_succ in Hlen. simpl.
    destruct (decide (escape_len s = 7)) as [H7|H7].
    + destruct rest; [|simpl in Hlen; lia].
      rewrite stuck_byte_full by assumption. simpl. auto.
    + pose proof Hs as (_ & ? & _).
      destruct (stuck_byte_room c (head rest) s Hs) as [E Hs1]; [lia|].
      rewrite E.
      specialize (IH _ Hs1). simpl in IH.
      destruct (keyboard_loop rest _) as [s2 out2]; simpl in *.
      apply IH. lia.
Qed.

Lemma stuck_state_stuck : stuck stuck_state.
Proof.
  split; [reflexivity|]. split; [vm_compute; split; discriminate|].
  reflexivity.
Qed.

Lemma X7_witness :
  (keyboard_loop [ch "a"; ch "b"; ch "c"; ch "d"; ch "e"] stuck_state).2 = []
  /\ escape_len
       (keyboard_loop [ch "a"; ch "b"; ch "c"; ch "d"; ch "e"]
                      stuck_state).1 = 0.
Proof.
  destruct (X7_unresolved_sequence_swallows_input
              [ch "a"; ch "b"; ch "c"; ch "d"; ch "e"] stuck_state
              stuck_state_stuck eq_refl) as (H1 & H2 & _).
  split; assumption.
Defined.

(** ** Where a chunk boundary matters *)

(** The lookahead byte is consulted only for an ESC followed by '['. *)
Lemma keyboard_byte_lookahead c next s :
  c <> 27 \/ next <> Some (ch "[") ->
  keyboard_byte c next s = keyboard_byte c None s.
Proof.
  intros H. unfold keyboard_byte.
  assert (E : resolve c next s = resolve c None s); [|rewrite E; reflexivity].
  unfold resolve. destruct (0 <? escape_len s); [reflexivity|].
  destruct (Z.eqb_spec c 27) as [Hc|Hc]; [|reflexivity].
  destruct next as [n|]; [|reflexivity].
  destruct (Z.eqb_spec n (ch "[")) as [Hn|Hn]; [|reflexivity].
  exfalso. destruct H as [H|H]; [exact (H Hc)|]. apply H. congruence.
Qed.

(** X8.  Reading the same bytes in two chunks instead of one gives the
    same reports and the same final state, unless the first chunk ends
    with ESC and the second starts with '['. *)
Theorem X8_chunk_boundary_only_matters_after_ESC :
  forall b1 b2 s,
    last b1 <> Some 27 \/ head b2 <> Some (ch "[") ->
    keyboard_chunks [b1; b2] s = keyboard_loop (b1 ++ b2) s.
Proof.
  intros b1 b2. simpl.
  induction b1 as [|c rest IH]; intros s H; simpl.
  - destruct (keyboard_loop b2 s) as [s2 out2]. rewrite app_nil_r.
    reflexivity.
  - assert (Hc : keyboard_byte c (head (rest ++ b2)) s
                 = keyboard_byte c (head rest) s).
    { destruct rest as [|x rest']; [|reflexivity]. simpl.
      apply keyboard_byte_lookahead.
      destruct H as [H|H]; [left | right; exact H].
      intros ->. apply H. reflexivity. }
    rewrite Hc. destruct (keyboard_byte c (head rest) s) as [s1 out1].
    rewrite <- IH.
    2:{ destruct H as [H|H]; [left | right; exact H].
        destruct rest as [|x rest']; [discriminate | exact H]. }
    destruct (keyboard_loop rest s1) as [s2 out2].
    destruct (keyboard_loop b2 s2) as [s3 out3].
    rewrite !app_nil_r, app_assoc. reflexivity.
Qed.

Lemma X8_witness :
  keyboard_chunks [[27; ch "["]; [ch "A"; ch "q"]] kbd_init
  = keyboard_loop [27; ch "["; ch "A"; ch "q"] kbd_init.
Proof.
  apply (X8_chunk_boundary_only_matters_after_ESC
           [27; ch "["] [ch "A"; ch "q"] kbd_init).
  left. discriminate.
Defined.

(** ** The ways out of [main] *)

(** X9.  Once the device is created, however the loop ends ([poll]
    fails, a source hangs up, a read fails or returns 0 or a short
    count), [main] returns [EXIT_SUCCESS] and the Destroy event is the
    last event written and the only Destroy; while the loop is
    waiting, no Destroy has been written. *)
Theorem X9_every_loop_exit_destroys_once :
  forall create_wr ws,
    uhid_write create_wr = 0 ->
    match (main (Opened create_wr) ws).1 with
    | Some status =>
        status = EXIT_SUCCESS
        /\ last (written (main (Opened create_wr) ws).2) = Some EvDestroy
        /\ count_destroy (written (main (Opened create_wr) ws).2) = 1%nat
    | None =>
        count_destroy (written (main (Opened create_wr) ws).2) = 0%nat
    end.
Proof.
  intros create_wr ws Hcreate. unfold main, create. rewrite Hcreate. simpl.
  fold process_created.
  destruct (main_loop_trace ws process_created kbd_init_empty)
    as (taps & Hw & Ht & _).
  destruct (main_loop ws process_created) as [stopped p1]; simpl in *.
  change (written p1 = [create_event] ++ taps) in Hw.
  destruct stopped; simpl.
  - split; [reflexivity|]. split; [apply last_snoc|].
    rewrite Hw, !count_destroy_app, (tap_trace_no_destroy taps Ht).
    reflexivity.
  - rewrite Hw, count_destroy_app, (tap_trace_no_destroy taps Ht).
    reflexivity.
Qed.

Lemma X9_witness :
  (main (Opened WrFull) [stdin_wakeup [ch "q"]; uhid_wakeup (DevShort 7)]).1
  = Some EXIT_SUCCESS
  /\ count_destroy
       (written (main (Opened WrFull)
                   [stdin_wakeup [ch "q"]; uhid_wakeup (DevShort 7)]).2)
     = 1%nat.
Proof.
  pose proof (X9_every_loop_exit_destroys_once WrFull
                [stdin_wakeup [ch "q"]; uhid_wakeup (DevShort 7)] eq_refl)
    as H.
  split; [reflexivity|]. destruct H as (_ & _ & H). exact H.
Defined.

(** X10.  When the write of the Create event fails or is short,
    [main] returns [EXIT_FAILURE] at once: the wakeups are not looked
    at, and the Create event is the only event handed to the device,
    with no Destroy after it. *)
Theorem X10_create_failure_exits_without_destroy :
  forall create_wr ws,
    uhid_write create_wr <> 0 ->
    main (Opened create_wr) ws
    = (Some EXIT_FAILURE,
       {| kbd := kbd_init; written := [create_event]; leds := [] |})
    /\ count_destroy (written (main (Opened create_wr) ws).2) = 0%nat.
Proof.
  intros create_wr ws Hcreate. unfold main, create.
  apply Z.eqb_neq in Hcreate. rewrite Hcreate. split; reflexivity.
Qed.

Lemma X10_witness :
  main (Opened (WrShort 100)) [stdin_wakeup [ch "q"]]
  = (Some EXIT_FAILURE,
     {| kbd := kbd_init; written := [create_event]; leds := [] |}).
Proof.
  apply (X10_create_failure_exits_without_destroy
           (WrShort 100) [stdin_wakeup [ch "q"]]).
  vm_compute. discriminate.
Defined.

(** X11.  A turn in which stdin is readable and its [read] returns 0
    bytes, or fails with a nonzero [errno], ends the loop: nothing is
    written, the keyboard state is unchanged and the device is not
    read in that turn, even when it is readable too. *)
Theorem X11_stdin_end_stops_before_device :
  forall w p rest,
    has_flag (revents0 w) POLLIN = true ->
    stdin_rd w = InHup
    \/ (exists errno, errno <> 0 /\ stdin_rd w = InErr errno) ->
    main_turn w p = (true, p) /\ main_loop (w :: rest) p = (true, p).
Proof.
  intros w p rest Hin Hrd.
  assert (Hturn : main_turn w p = (true, p)).
  { unfold main_turn.
    destruct (poll_ret w <? 0); [reflexivity|].
    destruct (has_flag (revents0 w) POLLHUP); [reflexivity|].
    destruct (has_flag (revents1 w) POLLHUP); [reflexivity|].
    unfold run_keyboard. rewrite Hin.
    destruct Hrd as [->|(errno & Hne & ->)]; simpl.
    - rewrite app_nil_r. destruct p; reflexivity.
    - destruct (Z.eqb_spec (- errno) 0); [lia|]. simpl.
      rewrite app_nil_r. destruct p; reflexivity. }
  split; [exact Hturn|]. simpl. rewrite Hturn. reflexivity.
Qed.

Lemma X11_witness :
  main_turn {| poll_ret := 2; revents0 := POLLIN; revents1 := POLLIN;
               stdin_rd := InHup; uhid_rd := DevEvent (led_event 1) |}
            process_created
  = (true, process_created).
Proof.
  apply (X11_stdin_end_stops_before_device _ process_created []).
  - reflexivity.
  - left. reflexivity.
Defined.

Lemma device_turn_step w ev p :
  device_turn w ev ->
  main_turn w p
  = (false, {| kbd := kbd p; written := written p;
               leds := leds p ++ option_list (led_of ev) |}).
Proof.
  intros (Hp & H0 & H1 & Hi0 & Hi1 & Hrd).
  unfold main_turn, run_keyboard, run_event.
  destruct (Z.ltb_spec (poll_ret w) 0); [lia|].
  rewrite H0, H1, Hi0, Hi1, Hrd. unfold led_of, event.
  destruct (ev_type ev =? UHID_OUTPUT); reflexivity.
Qed.

(** X12.  Whole events from the device, of any type, never end the
    loop, never make the program write to the device and never touch
    the keyboard state; all they leave behind are the LED flags
    printed for the Output events that carry an LED report, in
    order. *)
Theorem X12_device_events_only_log_leds :
  forall ws evs p,
    Forall2 device_turn ws evs ->
    main_loop ws p
    = (false, {| kbd := kbd p; written := written p;
                 leds := leds p ++ omap led_of evs |}).
Proof.
  intros ws evs p H. revert p.
  induction H as [|w ev ws evs Hw _ IH]; intros p.
  - simpl. rewrite app_nil_r. destruct p; reflexivity.
  - cbn [main_loop]. rewrite (device_turn_step w ev p Hw), IH.
    cbn [kbd written leds]. rewrite <- app_assoc.
    replace (option_list (led_of ev) ++ omap led_of evs)
      with (omap led_of (ev :: evs)); [reflexivity|].
    cbn [omap list_omap]. destruct (led_of ev); reflexivity.
Qed.

Lemma X12_witness :
  main_loop [uhid_wakeup (DevEvent (led_event 3));
             uhid_wakeup (DevEvent {| ev_type := UHID_START;
                                      ev_output := ev_output (led_event 0) |})]
            process_created
  = (false, {| kbd := kbd_init; written := [create_event]; leds := [3] |}).
Proof.
  apply (X12_device_events_only_log_leds
           _ [led_event 3;
              {| ev_type := UHID_START;
                 ev_output := ev_output (led_event 0) |}] process_created).
  repeat constructor; vm_compute; (discriminate || reflexivity).
Defined.

(** ** The mapping table *)

Lemma ascii_to_hid_outside c : c < 0 \/ 126 < c -> ascii_to_hid c = 0.
Proof.
  intros H. unfold ascii_to_hid.
  repeat match goal with
  | |- context [between ?lo ?hi c] =>
      let E := fresh in
      destruct (between lo hi c) eqn:E;
        [apply between_spec in E; chars; lia|]
  | |- context [c =? ?k] =>
      destruct (Z.eqb_spec c k); [chars; lia|]
  end.
  reflexivity.
Qed.

(** X13.  The bytes [ascii_to_hid] gives no usage code, so that the
    translator drops them, are exactly: the control characters other
    than backspace, tab, line feed, carriage return and ESC; the
    printable characters double quote, + : < > ? _ { | } ~; DEL and
    every byte with the high bit set, whether [char] is signed or
    not. *)
Theorem X13_bytes_without_usage_code :
  forall c,
    ascii_to_hid c = 0
    <-> (c < 32 /\ c ∉ mapped_control)
        \/ (c ∈ unmapped_printable)
        \/ 126 < c.
Proof.
  intros c.
  destruct (decide (0 <= c <= 126)) as [Hin|Hout].
  - assert (Hall : Forall (fun c =>
               ascii_to_hid c = 0
               <-> (c < 32 /\ c ∉ mapped_control)
                   \/ (c ∈ unmapped_printable) \/ 126 < c)
             (seqZ 0 127)).
    { apply (bool_decide_unpack _). vm_compute. exact I. }
    rewrite Forall_forall in Hall. apply Hall, elem_of_seqZ. lia.
  - split.
    + intros _. destruct (Z.lt_ge_cases c 0); [left | right; right; lia].
      split; [lia|]. unfold mapped_control. intros H0.
      repeat (apply elem_of_cons in H0 as [H0|H0]; [lia|]).
      apply elem_of_nil in H0. exact H0.
    + intros _. apply ascii_to_hid_outside. lia.
Qed.

(** X14.  Lowercase letters and digits have pairwise distinct usage
    codes: letters take 0x04 to 0x1d in alphabetical order, the
    digits '1' to '9' take 0x1e to 0x26 and '0' takes 0x27. *)
Theorem X14_letters_and_digits_distinct :
  forall c1 c2,
    lower_or_digit c1 -> lower_or_digit c2 ->
    ascii_to_hid c1 = ascii_to_hid c2 -> c1 = c2.
Proof.
  assert (Hcode : forall c,
             lower_or_digit c ->
             (ch "a" <= c <= ch "z" /\ ascii_to_hid c = c - ch "a" + 0x04)
             \/ (ch "1" <= c <= ch "9"
                 /\ ascii_to_hid c = c - ch "1" + 0x1e)
             \/ (c = ch "0" /\ ascii_to_hid c = 0x27)).
  { intros c Hc. unfold lower_or_digit in Hc. unfold ascii_to_hid, to_uchar.
    destruct (between (ch "a") (ch "z") c) eqn:E1.
    { apply between_spec in E1. left. split; [exact E1|].
      chars. rewrite Z.mod_small by lia. lia. }
    apply between_false in E1.
    destruct (between (ch "A") (ch "Z") c) eqn:E2.
    { apply between_spec in E2. chars. lia. }
    destruct (between (ch "1") (ch "9") c) eqn:E3.
    { apply between_spec in E3. right. left. split; [exact E3|].
      chars. rewrite Z.mod_small by lia. lia. }
    apply between_false in E3.
    destruct (Z.eqb_spec c (ch "0")); [auto|]. chars. lia. }
  intros c1 c2 H1 H2 Heq.
  destruct (Hcode c1 H1) as [(R1 & E1)|[(R1 & E1)|(R1 & E1)]];
    destruct (Hcode c2 H2) as [(R2 & E2)|[(R2 & E2)|(R2 & E2)]];
    rewrite E1, E2 in Heq; chars; lia.
Qed.

Lemma X14_witness : ch "k" = ch "k".
Proof.
  apply X14_letters_and_digits_distinct.
  - left. vm_compute. split; discriminate.
  - left. vm_compute. split; discriminate.
  - reflexivity.
Defined.

(** X15.  Outside an escape sequence, each symbol of the digit row
    (! @ # $ % ^ & * ( and the closing parenthesis) is translated
    exactly as the digit of its key: same usage code, no shift, same
    two reports and same state afterwards. *)
Theorem X15_digit_row_symbols_sent_as_digits :
  forall symbol digit next s,
    (symbol, digit) ∈ digit_row_symbols ->
    escape_len s <= 0 ->
    ascii_to_hid symbol = ascii_to_hid digit
    /\ keyboard_byte symbol next s = keyboard_byte digit next s.
Proof.
  intros symbol digit next s Hin Hlen. unfold digit_row_symbols in Hin.
  assert (Hnormal : (0 <? escape_len s) = false) by (apply Z.ltb_ge; lia).
  repeat (apply elem_of_cons in Hin as [Hin|Hin];
          [injection Hin as -> ->; split; [reflexivity|];
           unfold keyboard_byte, resolve; rewrite Hnormal; reflexivity|]).
  apply elem_of_nil in Hin. contradiction.
Qed.

Lemma X15_witness :
  keyboard_byte (ch "!") None kbd_init = keyboard_byte (ch "1") None kbd_init.
Proof.
  apply (X15_digit_row_symbols_sent_as_digits (ch "!") (ch "1")).
  - left.
  - simpl. lia.
Defined.
